(** * mycroft.tts: synthesis cache, playback thread and backend validator

    A shallow embedding of [mycroft/tts/__init__.py].  Python values are
    modelled by the types the code uses them at, exceptions by an error
    result, the file system by a finite map from paths to contents, and
    the collaborators that live outside this module (the backend's
    [get_tts] and [visime], [mycroft.util]'s helpers, the audio players,
    the clock) by the variables of a section. *)

From Stdlib Require Import Ascii String QArith Lqa.
From stdpp Require Import gmap strings list fin_maps.

Local Open Scope string_scope.

(** ** Python strings and POSIX paths *)

Module Py.

(** The characters [str.strip()] removes: space, tab, newline, carriage
    return, vertical tab and form feed. *)
Definition is_space (a : ascii) : bool :=
  let n := nat_of_ascii a in
  (n =? 32)%nat || ((9 <=? n)%nat && (n <=? 13)%nat).

Fixpoint lstrip_chars (l : list ascii) : list ascii :=
  match l with
  | a :: l' => if is_space a then lstrip_chars l' else l
  | [] => []
  end.

Definition rstrip_chars (l : list ascii) : list ascii :=
  rev (lstrip_chars (rev l)).

(** [s.strip()] *)
Definition strip (s : string) : string :=
  string_of_list_ascii
    (rstrip_chars (lstrip_chars (list_ascii_of_string s))).

(** [s.startswith(t)] *)
Fixpoint startswith_chars (s t : list ascii) : bool :=
  match t, s with
  | [], _ => true
  | b :: t', a :: s' => Ascii.eqb a b && startswith_chars s' t'
  | _ :: _, [] => false
  end.

Definition startswith (s t : string) : bool :=
  startswith_chars (list_ascii_of_string s) (list_ascii_of_string t).

(** [s.endswith(t)] *)
Definition endswith (s t : string) : bool :=
  startswith_chars (rev (list_ascii_of_string s))
                   (rev (list_ascii_of_string t)).

(** Truth value of a string: empty strings are falsy. *)
Definition truthy (s : string) : bool :=
  match s with EmptyString => false | _ => true end.

(** Truth value of a value that may be [None]. *)
Definition truthy_opt (o : option string) : bool :=
  match o with Some s => truthy s | None => false end.

Definition slash : ascii := "/"%char.

Definition is_slash (a : ascii) : bool := Ascii.eqb a slash.

(** [posixpath.join(a, b)] *)
Definition path_join (a b : string) : string :=
  if startswith b "/" then b
  else if negb (truthy a) || endswith a "/" then a ++ b
  else a ++ "/" ++ b.

(** [s.rstrip('/')] on the characters of [s]. *)
Fixpoint drop_slashes (l : list ascii) : list ascii :=
  match l with
  | a :: l' => if is_slash a then drop_slashes l' else l
  | [] => []
  end.

(** [p[:p.rfind('/') + 1]], computed on the reversed characters. *)
Fixpoint after_last_slash_rev (r : list ascii) : list ascii :=
  match r with
  | a :: r' => if is_slash a then r else after_last_slash_rev r'
  | [] => []
  end.

(** [posixpath.dirname(p)] *)
Definition dirname (p : string) : string :=
  let head_rev := after_last_slash_rev (rev (list_ascii_of_string p)) in
  let head_rev' :=
    if forallb is_slash head_rev then head_rev else drop_slashes head_rev in
  string_of_list_ascii (rev head_rev').

(** The remainder of [s] after the prefix [t], when [s] starts with it. *)
Fixpoint strip_prefix (t s : list ascii) : option (list ascii) :=
  match t, s with
  | [], _ => Some s
  | b :: t', a :: s' => if Ascii.eqb a b then strip_prefix t' s' else None
  | _ :: _, [] => None
  end.

End Py.

(** ** Exceptions and results *)

Inductive exn : Type :=
| NameError (name : string)
| UnboundLocalError (name : string)
| AttributeError (msg : string)
| IOError (path : string)
| QueueEmpty
| External (msg : string).

Inductive result (A : Type) : Type :=
| Ok (a : A)
| Raise (e : exn).

Arguments Ok {A} a.
Arguments Raise {A} e.

(** ** The file system

    Files are keyed by their full path.  [unreadable] and [unwritable]
    are the paths on which [open] fails, so that the code's [except]
    branches can be reached. *)

Record FS : Type := mkFS {
  files : gmap string string;
  dirs : gset string;
  unreadable : gset string;
  unwritable : gset string
}.

Definition fs_isfile (p : string) (f : FS) : bool :=
  bool_decide (is_Some (files f !! p)).

Definition fs_isdir (p : string) (f : FS) : bool :=
  bool_decide (p ∈ dirs f).

(** [os.path.exists] *)
Definition fs_exists (p : string) (f : FS) : bool :=
  fs_isfile p f || fs_isdir p f.

(** [with open(p, "w") as h: h.write(c)] *)
Definition fs_write (p c : string) (f : FS) : result unit * FS :=
  if bool_decide (p ∈ unwritable f) then (Raise (IOError p), f)
  else (Ok tt, mkFS (<[p := c]> (files f)) (dirs f)
                    (unreadable f) (unwritable f)).

(** [with open(p, "r") as h: h.read()] *)
Definition fs_read (p : string) (f : FS) : result string :=
  if bool_decide (p ∈ unreadable f) then Raise (IOError p)
  else match files f !! p with
       | Some c => Ok c
       | None => Raise (IOError p)
       end.

(** Whether [p] is [os.path.join(d, name)] for an entry [name] that
    [os.listdir(d)] can return. *)
Definition is_child (d p : string) : bool :=
  match Py.strip_prefix (list_ascii_of_string (Py.path_join d ""))
                        (list_ascii_of_string p) with
  | Some [] => false
  | Some name => forallb (fun a => negb (Py.is_slash a)) name
  | None => false
  end.

(** [os.unlink] on every regular file directly under [d]. *)
Definition fs_unlink_children (d : string) (f : FS) : FS :=
  mkFS (filter (fun kv => is_child d kv.1 = false) (files f))
       (dirs f) (unreadable f) (unwritable f).

(** ** Jobs, collaborator calls and the shared state *)

(** A viseme event: [(code, duration)]. *)
Definition Viseme : Type := string * Q.

(** A playback job: [(snd_type, data, visimes)]; [visimes] may be [None]. *)
Definition Job : Type := string * string * option (list Viseme).

(** The handle [play_wav] / [play_mp3] return, named by what it plays. *)
Record Popen : Type := mkPopen { p_player : string; p_data : string }.

(** Calls made to collaborators, in the order they happen. *)
Inductive Event : Type :=
| EvSynth (sentence wav_file : string)
| EvCurate (dir : string)
| EvLog (msg : string)
| EvBlink (style : string)
| EvPlay (p : Popen)
| EvViseme (code : string) (at_time : Q)
| EvSleep (seconds : Q)
| EvCommunicate (p : Popen).

(** An attribute of a Python object: never assigned, [None], or an
    [EnclosureAPI] object. *)
Inductive Attr : Type :=
| Unset
| IsNone
| IsAPI.

Record World : Type := mkWorld {
  fs : FS;
  queue : list Job;          (* the [Queue] shared by [TTS] and its thread *)
  terminated : bool;         (* [PlaybackThread._terminated] *)
  enclosure : Attr;          (* [PlaybackThread.enclosure] *)
  clock : Q;                 (* what [time()] returns; [sleep] and a
                                [get] that times out move it forward *)
  polls : nat;               (* calls to [check_for_signal] so far *)
  draws : nat;               (* calls to [random.random] so far *)
  handle : option Popen;     (* the local [p] of [PlaybackThread.run] *)
  trace : list Event
}.

Definition set_fs (f : FS) (w : World) : World :=
  mkWorld f (queue w) (terminated w) (enclosure w) (clock w)
          (polls w) (draws w) (handle w) (trace w).

Definition set_queue (q : list Job) (w : World) : World :=
  mkWorld (fs w) q (terminated w) (enclosure w) (clock w)
          (polls w) (draws w) (handle w) (trace w).

Definition set_terminated (b : bool) (w : World) : World :=
  mkWorld (fs w) (queue w) b (enclosure w) (clock w)
          (polls w) (draws w) (handle w) (trace w).

Definition set_enclosure (a : Attr) (w : World) : World :=
  mkWorld (fs w) (queue w) (terminated w) a (clock w)
          (polls w) (draws w) (handle w) (trace w).

Definition set_clock (t : Q) (w : World) : World :=
  mkWorld (fs w) (queue w) (terminated w) (enclosure w) t
          (polls w) (draws w) (handle w) (trace w).

Definition bump_polls (w : World) : World :=
  mkWorld (fs w) (queue w) (terminated w) (enclosure w) (clock w)
          (S (polls w)) (draws w) (handle w) (trace w).

Definition bump_draws (w : World) : World :=
  mkWorld (fs w) (queue w) (terminated w) (enclosure w) (clock w)
          (polls w) (S (draws w)) (handle w) (trace w).

Definition set_handle (p : Popen) (w : World) : World :=
  mkWorld (fs w) (queue w) (terminated w) (enclosure w) (clock w)
          (polls w) (draws w) (Some p) (trace w).

Definition record (e : Event) (w : World) : World :=
  mkWorld (fs w) (queue w) (terminated w) (enclosure w) (clock w)
          (polls w) (draws w) (handle w) (trace w ++ [e]).

(** ** Statements that may raise, over the shared state *)

Definition M (A : Type) : Type := World -> result A * World.

Definition ret {A} (a : A) : M A := fun w => (Ok a, w).

Definition raise {A} (e : exn) : M A := fun w => (Raise e, w).

Definition bind {A B} (m : M A) (k : A -> M B) : M B :=
  fun w => match m w with
           | (Ok a, w') => k a w'
           | (Raise e, w') => (Raise e, w')
           end.

(** [try: m  except: h] with a bare [except]. *)
Definition try_except {A} (m : M A) (h : M A) : M A :=
  fun w => match m w with
           | (Ok a, w') => (Ok a, w')
           | (Raise _, w') => h w'
           end.

Definition get : M World := fun w => (Ok w, w).

Definition modify (f : World -> World) : M unit := fun w => (Ok tt, f w).

Definition emit (e : Event) : M unit := modify (record e).

Declare Scope py_scope.
Delimit Scope py_scope with py.
Notation "x <- m ;; k" := (bind m (fun x => k))
  (at level 100, m at next level, right associativity) : py_scope.
Notation "m ;; k" := (bind m (fun _ => k))
  (at level 100, right associativity) : py_scope.
Local Open Scope py_scope.

Definition Qltb (a b : Q) : bool := negb (Qle_bool b a).

(** [x or d] for a string [x] that may be [None]. *)
Definition py_or (x : option string) (d : string) : string :=
  match x with
  | Some s => if Py.truthy s then s else d
  | None => d
  end.

(** ['%s' % x] *)
Definition py_str (x : option string) : string :=
  match x with Some s => s | None => "None" end.

(** The attributes [TTS.__init__] assigns. *)
Record TTS : Type := mkTTS {
  lang : string;
  voice : option string;
  filename : option string;
  tts_enclosure : Attr
}.

(** ** Concrete collaborators

    Small instances of the collaborators, for running the model: a cache
    directory, three backends, signal sources and players. *)

Module Demo.

Definition cache : string := "/cache".

(** The MD5 digest of the one sentence used below, ["hello"]. *)
Definition digest (s : string) : string :=
  "5d41402abc4b2a76b9719d911017c592".

Definition disk : FS := mkFS ∅ {[ "/tmp"; "/cache" ]} ∅ ∅.

(** The same disk with the artifact of ["hello"] already cached. *)
Definition disk_hit : FS :=
  mkFS {[ "/cache/5d41402abc4b2a76b9719d911017c592wav" := "RIFF" ]}
       {[ "/tmp"; "/cache" ]} ∅ ∅.

Definition world (a : Attr) (f : FS) (q : list Job) : World :=
  mkWorld f q false a 0 0 0 None [].

(** A curation that finds nothing to evict. *)
Definition curate (dir : string) (f : FS) : result unit * FS := (Ok tt, f).

(** A backend that writes the artifact where it is told to. *)
Definition local_tts (sentence wav_file : string) (f : FS)
  : result (string * option string) * FS :=
  (Ok (wav_file, Some "pau:0.2 hh:0.3"),
   mkFS (<[wav_file := "RIFF"]> (files f)) (dirs f)
        (unreadable f) (unwritable f)).

(** A backend that returns an artifact of its own and leaves the
    destination it was given alone. *)
Definition remote_tts (sentence wav_file : string) (f : FS)
  : result (string * option string) * FS :=
  (Ok ("/tmp/remote.wav", None), f).

(** A backend whose engine fails. *)
Definition failing_tts (sentence wav_file : string) (f : FS)
  : result (string * option string) * FS :=
  (Raise (External "synthesis failed"), f).

Definition no_visime (phonemes : option string)
  : result (option (list Viseme)) := Ok None.

(** No signal is ever set. *)
Definition never (name : string) (life : Z) (n : nat) (t : Q) : bool :=
  false.

(** [stoppingTTS] is set throughout. *)
Definition stopping (name : string) (life : Z) (n : nat) (t : Q) : bool :=
  String.eqb name "stoppingTTS".

(** A random source that never lets the eyes blink. *)
Definition dice (n : nat) : Q := 1.

Definition wav_player (data : string) : result Popen :=
  Ok (mkPopen "wav" data).

Definition mp3_player (data : string) : result Popen :=
  Ok (mkPopen "mp3" data).

Definition passes : M unit := ret tt.

(** The disk with the artifact of ["hello"] and its payload cached. *)
Definition disk_cached : FS :=
  mkFS {[ "/cache/5d41402abc4b2a76b9719d911017c592wav" := "RIFF";
          "/cache/5d41402abc4b2a76b9719d911017c592.pho" := "pau:0.2 hh:0.3 
" ]}
       {[ "/tmp"; "/cache" ]} ∅ ∅.

(** A backend whose engine fails after it has begun to write the
    artifact. *)
Definition partial_tts (sentence wav_file : string) (f : FS)
  : result (string * option string) * FS :=
  (Raise (External "synthesis failed"),
   mkFS (<[wav_file := "RI"]> (files f)) (dirs f)
        (unreadable f) (unwritable f)).

(** A curation that fails. *)
Definition failing_curate (dir : string) (f : FS) : result unit * FS :=
  (Raise (External "cannot stat the cache"), f).

(** A backend without phonemes. *)
Definition mute_tts (sentence wav_file : string) (f : FS)
  : result (string * option string) * FS :=
  (Ok (wav_file, None),
   mkFS (<[wav_file := "RIFF"]> (files f)) (dirs f)
        (unreadable f) (unwritable f)).

(** A player that cannot open the audio device. *)
Definition broken_player (data : string) : result Popen :=
  Raise (External "no audio device").

(** A constructor and a validator for the factory. *)
Definition build (name : string) (lang voice : option string)
           (url : option (option string)) : M TTS :=
  ret (mkTTS (py_or lang "en-us") voice (Some "/tmp/tts.wav") IsNone).

Definition check (tts : TTS) : M unit := ret tt.

Definition remote (name : string) : bool :=
  String.eqb name "marytts" || String.eqb name "fatts".

End Demo.

Section Module_tts.

(** *** Collaborators outside the module *)

(** [hashlib.md5(s.encode('utf-8', 'ignore')).hexdigest()] *)
Variable md5_hex : string -> string.
(** [mycroft.util.get_cache_directory("tts")] *)
Variable cache_dir : string.
(** [mycroft.util.curate_cache] *)
Variable curate_cache : string -> FS -> result unit * FS.
(** [self.type], assigned by the backend's subclass *)
Variable tts_type : string.
(** The backend's [get_tts]: returns [(wav_file, phonemes)] or raises,
    and may write files. *)
Variable get_tts :
  string -> string -> FS -> result (string * option string) * FS.
(** The backend's [visime]. *)
Variable visime : option string -> result (option (list Viseme)).
(** [mycroft.util.check_for_signal name sec_lifetime], as observed by
    the n-th call made at a given time. *)
Variable check_for_signal : string -> Z -> nat -> Q -> bool.
(** The n-th value drawn from [random.random()]. *)
Variable random : nat -> Q.
(** [mycroft.util.play_wav], [mycroft.util.play_mp3] *)
Variable play_wav : string -> result Popen.
Variable play_mp3 : string -> result Popen.

(** *** class TTS *)

Definition call_get_tts (sentence wav_file : string)
  : M (string * option string) :=
  fun w =>
    let '(r, f) := get_tts sentence wav_file (fs w) in
    (r, set_fs f (record (EvSynth sentence wav_file) w)).

Definition call_curate_cache (dir : string) : M unit :=
  fun w =>
    let '(r, f) := curate_cache dir (fs w) in
    (r, set_fs f (record (EvCurate dir) w)).

Definition write_file (p c : string) : M unit :=
  fun w => let '(r, f) := fs_write p c (fs w) in (r, set_fs f w).

Definition read_file (p : string) : M string :=
  fun w => (fs_read p (fs w), w).

Definition pho_path (key : string) : string :=
  Py.path_join cache_dir (key ++ ".pho").

Definition save_phonemes (key phonemes : string) : M unit :=
  call_curate_cache cache_dir;;
  try_except
    (write_file (pho_path key) phonemes)
    (emit (EvLog "Failed to write .PHO to cache")).

Definition load_phonemes (key : string) : M (option string) :=
  w <- get;;
  if fs_exists (pho_path key) (fs w) then
    try_except
      (c <- read_file (pho_path key);; ret (Some (Py.strip c)))
      (emit (EvLog "Failed to read .PHO from cache");; ret None)
  else ret None.

Definition queue_put (j : Job) : M unit :=
  modify (fun w => set_queue (queue w ++ [j]) w).

Definition call_visime (phonemes : option string)
  : M (option (list Viseme)) :=
  fun w => (visime phonemes, w).

Definition wav_path (sentence : string) : string :=
  Py.path_join cache_dir (md5_hex sentence ++ tts_type).

Definition execute (sentence : string) : M unit :=
  let key := md5_hex sentence in
  let wav_file := wav_path sentence in
  w <- get;;
  found <-
    (if fs_exists wav_file (fs w) then
       emit (EvLog "TTS cache hit");;
       phonemes <- load_phonemes key;;
       ret (wav_file, phonemes)
     else
       synth <- call_get_tts sentence wav_file;;
       (if Py.truthy_opt synth.2
        then save_phonemes key (py_str synth.2)
        else ret tt);;
       ret synth);;
  v <- call_visime found.2;;
  queue_put (tts_type, found.1, v).

Definition clear_cache : M unit :=
  w <- get;;
  if negb (fs_exists cache_dir (fs w)) then ret tt
  else if negb (fs_isdir cache_dir (fs w)) then raise (IOError cache_dir)
  else modify (fun w => set_fs (fs_unlink_children cache_dir (fs w)) w).

(** [TTS.__init__]: a fresh queue and playback thread (whose
    [enclosure] attribute is not assigned yet), then [clear_cache]. *)
Definition TTS_init (lang voice : option string) : M TTS :=
  let self := mkTTS (py_or lang "en-us") voice (Some "/tmp/tts.wav") IsNone in
  modify (set_queue []);;
  modify (set_terminated false);;
  modify (set_enclosure Unset);;
  clear_cache;;
  ret self.

(** [TTS.init(ws)] *)
Definition TTS_connect (self : TTS) : M TTS :=
  modify (set_enclosure IsAPI);;
  ret (mkTTS (lang self) (voice self) (filename self) IsAPI).

(** *** class PlaybackThread *)

Definition now : M Q := fun w => (Ok (clock w), w).

(** [sleep(d)] *)
Definition sleep (d : Q) : M unit :=
  modify (fun w => set_clock (clock w + d)%Q (record (EvSleep d) w)).

Definition poll (name : string) (sec_lifetime : Z) : M bool :=
  fun w => (Ok (check_for_signal name sec_lifetime (polls w) (clock w)),
            bump_polls w).

Definition draw : M Q :=
  fun w => (Ok (random (draws w)), bump_draws w).

Definition no_enclosure : exn :=
  AttributeError "'PlaybackThread' object has no attribute 'enclosure'".

(** [if self.enclosure: act] *)
Definition if_enclosure (act : M unit) : M unit :=
  w <- get;;
  match enclosure w with
  | Unset => raise no_enclosure
  | IsNone => ret tt
  | IsAPI => act
  end.

Definition mouth_viseme (code : string) : M unit :=
  t <- now;; emit (EvViseme code t).

(** The [for] loop of [show_visimes]. *)
Fixpoint walk (start : Q) (pairs : list Viseme) : M unit :=
  match pairs with
  | [] => ret tt
  | (code, duration) :: rest =>
      stopping <- poll "stoppingTTS" (-1);;
      if stopping then ret tt else
      pressed <- poll "buttonPress" 0;;
      if pressed then ret tt else
      if_enclosure (mouth_viseme code);;
      t <- now;;
      let delta := (t - start)%Q in
      (if Qltb delta duration then sleep (duration - delta)%Q else ret tt);;
      walk start rest
  end.

Definition show_visimes (pairs : list Viseme) : M unit :=
  start <- now;;
  walk start pairs.

(** [self.enclosure and random.random() < rate] guards the blink. *)
Definition blink (rate : Q) : M unit :=
  if_enclosure
    (r <- draw;;
     if Qltb r rate then emit (EvBlink "b") else ret tt).

(** [self.queue.get(timeout=2)]: with nothing queued the call waits for
    the timeout and raises [Empty]. *)
Definition queue_get (timeout : Q) : M Job :=
  fun w => match queue w with
           | j :: q => (Ok j, set_queue q w)
           | [] => (Raise QueueEmpty, set_clock (clock w + timeout)%Q w)
           end.

Definition start_player (player : string -> result Popen) (data : string)
  : M unit :=
  fun w => match player data with
           | Ok p => (Ok tt, set_handle p (record (EvPlay p) w))
           | Raise e => (Raise e, w)
           end.

(** [p.communicate()], on the local [p] of [run]. *)
Definition communicate : M unit :=
  w <- get;;
  match handle w with
  | None => raise (UnboundLocalError "p")
  | Some p => emit (EvCommunicate p)
  end.

(** [if visimes:] holds for a list with an element. *)
Definition has_visimes (v : option (list Viseme)) : bool :=
  match v with
  | Some (_ :: _) => true
  | _ => false
  end.

(** The [try] block of [run]. *)
Definition run_body : M unit :=
  job <- queue_get 2;;
  let '(snd_type, data, visimes) := job in
  blink (1 # 2);;
  (if String.eqb snd_type "wav" then start_player play_wav data
   else if String.eqb snd_type "mp3" then start_player play_mp3 data
   else ret tt);;
  (if has_visimes visimes
   then show_visimes (default [] visimes)
   else ret tt);;
  communicate;;
  blink (1 # 5).

(** One turn of the [while] loop: the [try] block under [except: pass]. *)
Definition run_iteration : M unit :=
  try_except run_body (ret tt).

(** [while not self._terminated: ...], for at most [fuel] turns; the
    result tells whether the loop was left. *)
Fixpoint run_loop (fuel : nat) : M bool :=
  w <- get;;
  if terminated w then ret true
  else match fuel with
       | O => ret false
       | S n => run_iteration;; run_loop n
       end.

(** [PlaybackThread.run]: the local [p] starts unbound. *)
Definition run (fuel : nat) : M bool :=
  modify (fun w => mkWorld (fs w) (queue w) (terminated w) (enclosure w)
                           (clock w) (polls w) (draws w) None (trace w));;
  run_loop fuel.

(** [PlaybackThread.stop]: the loop body names [queue], which is
    neither a local nor a global of the module. *)
Definition stop : M unit :=
  modify (set_terminated true);;
  w <- get;;
  match queue w with
  | [] => ret tt
  | _ :: _ => raise (NameError "queue")
  end.

(** *** class TTSValidator *)

(** [isinstance(self.tts, self.get_tts_class())] and the class name. *)
Variable is_tts_instance : bool.
Variable tts_class_name : string.
(** The abstract checks, supplied by each backend. *)
Variable validate_lang : M unit.
Variable validate_connection : M unit.

Definition validate_instance : M unit :=
  if negb is_tts_instance
  then raise (AttributeError ("tts must be instance of " ++ tts_class_name))
  else ret tt.

Definition wav_format (filename : option string) : bool :=
  match filename with
  | Some f => Py.truthy f && Py.endswith f ".wav"
  | None => false
  end.

Definition validate_filename (tts : TTS) : M unit :=
  let filename := filename tts in
  if negb (wav_format filename)
  then raise (AttributeError
                ("file: " ++ py_str filename ++ " must be in .wav format!"))
  else
    w <- get;;
    let dir_path := Py.dirname (py_str filename) in
    if negb (fs_exists dir_path (fs w) && fs_isdir dir_path (fs w))
    then raise (AttributeError
                  ("filename: " ++ py_str filename ++ " is not valid!"))
    else ret tt.

Definition validate (tts : TTS) : M unit :=
  validate_instance;;
  validate_filename tts;;
  validate_lang;;
  validate_connection.

(** *** Observations on traces *)

Definition is_synth (e : Event) : bool :=
  match e with EvSynth _ _ => true | _ => false end.

Definition is_log (e : Event) : bool :=
  match e with EvLog _ => true | _ => false end.

Definition is_play (e : Event) : bool :=
  match e with EvPlay _ => true | _ => false end.

(** How often [get_tts] was called. *)
Definition synth_calls (tr : list Event) : nat :=
  length (filter (fun e => is_synth e = true) tr).

(** The players started, in order. *)
Definition plays (tr : list Event) : list Event :=
  filter (fun e => is_play e = true) tr.

(** The visemes sent to the enclosure, with the time of each. *)
Fixpoint emissions (tr : list Event) : list (string * Q) :=
  match tr with
  | EvViseme c t :: tr' => (c, t) :: emissions tr'
  | _ :: tr' => emissions tr'
  | [] => []
  end.

(** Elapsed time after the wait of one event: the wait only ever moves
    the elapsed time forward to the event's duration. *)
Definition wait_until (elapsed duration : Q) : Q :=
  if Qltb elapsed duration then duration else elapsed.

(** When each code is sent, as elapsed time since the walk began. *)
Fixpoint schedule (elapsed : Q) (pairs : list Viseme) : list (string * Q) :=
  match pairs with
  | [] => []
  | (code, duration) :: rest =>
      (code, elapsed) :: schedule (wait_until elapsed duration) rest
  end.

(** The state after one turn of the walk in which neither signal was
    seen and the enclosure attribute is assigned: two polls, the code
    sent when there is an enclosure, then the wait. *)
Definition after_event (start : Q) (code : string) (duration : Q)
           (w : World) : World :=
  let w1 := bump_polls (bump_polls w) in
  let w2 := match enclosure w with
            | IsAPI => record (EvViseme code (clock w)) w1
            | _ => w1
            end in
  let delta := (clock w - start)%Q in
  if Qltb delta duration
  then set_clock (clock w + (duration - delta))%Q
                 (record (EvSleep (duration - delta)%Q) w2)
  else w2.

(** What the playback thread never touches while it handles a job. *)
Definition keeps (w w' : World) : Prop :=
  fs w' = fs w /\ queue w' = queue w /\ terminated w' = terminated w
  /\ enclosure w' = enclosure w.

(** No player was started and the local [p] is as before. *)
Definition keeps_audio (w w' : World) : Prop :=
  handle w' = handle w /\ plays (trace w') = plays (trace w).

(** An output path as the specification words it: it ends in the
    backend's audio extension and its directory exists. *)
Definition spec_output_path_ok (extension : string)
           (filename : option string) (f : FS) : bool :=
  match filename with
  | Some p => Py.endswith p extension && fs_isdir (Py.dirname p) f
  | None => false
  end.

(** Events of the audio device: a player started, a player waited for. *)
Definition is_audio (e : Event) : bool :=
  match e with EvPlay _ | EvCommunicate _ => true | _ => false end.

Definition audio (tr : list Event) : list Event :=
  filter (fun e => is_audio e = true) tr.

(** A name [os.listdir] can return: not empty, no separator in it. *)
Definition entry_name (name : string) : bool :=
  match list_ascii_of_string name with
  | [] => false
  | l => forallb (fun a => negb (Py.is_slash a)) l
  end.

(** The player [run] starts for a job of the given kind, if any. *)
Definition player_for (kind : string) : option (string -> result Popen) :=
  if String.eqb kind "wav" then Some play_wav
  else if String.eqb kind "mp3" then Some play_mp3
  else None.

(** No signal was polled, no viseme sent and no time spent. *)
Definition quiet (w w' : World) : Prop :=
  polls w' = polls w /\ emissions (trace w') = emissions (trace w)
  /\ clock w' = clock w.

(** What a queue of jobs makes the audio device do, given the handle
    each job's player returns: start, then wait, one job after the other. *)
Definition serial_audio (handles : list Popen) : list Event :=
  flat_map (fun h => [EvPlay h; EvCommunicate h]) handles.

(** *** class TTSFactory *)

(** A value of the [tts] section of the configuration: a string, a
    nested section, or [null]. *)
Inductive CfgValue : Type :=
| CfgStr (s : string)
| CfgDict (d : gmap string string)
| CfgNone.

(** The keys of [TTSFactory.CLASSES]. *)
Definition CLASSES : list string :=
  ["mimic"; "google"; "marytts"; "fatts"; "espeak"; "spdsay"]%string.

(** [issubclass(CLASSES[module], RemoteTTS)], for a key of [CLASSES]. *)
Variable is_remote : string -> bool.
(** [CLASSES[module](lang, voice)], or [CLASSES[module](lang, voice, url)]
    when a url is passed. *)
Variable construct :
  string -> option string -> option string -> option (option string) -> M TTS.
(** [tts.validator.validate()] *)
Variable validator_validate : TTS -> M unit.

Definition type_error (msg : string) : exn :=
  External ("TypeError: " ++ msg).

(** [config.get(module)], then the attribute [get] of the result. *)
Definition section_of (config : gmap string CfgValue) (module : option string)
  : M (gmap string string) :=
  match module with
  | None => raise (AttributeError "'NoneType' object has no attribute 'get'")
  | Some name =>
      match config !! name with
      | Some (CfgDict d) => ret d
      | Some (CfgStr _) =>
          raise (AttributeError "'unicode' object has no attribute 'get'")
      | Some CfgNone | None =>
          raise (AttributeError "'NoneType' object has no attribute 'get'")
      end
  end.

(** [TTSFactory.create], on the [tts] section of the configuration. *)
Definition create (config : gmap string CfgValue) : M TTS :=
  match default (CfgStr "mimic") (config !! "module"%string) with
  | CfgDict _ => raise (type_error "unhashable type: 'dict'")
  | (CfgStr _ | CfgNone) as m =>
      let module := match m with CfgStr name => Some name | _ => None end in
      d_lang <- section_of config module;;
      let lang := d_lang !! "lang"%string in
      d_voice <- section_of config module;;
      let voice := d_voice !! "voice"%string in
      match module with
      | Some name =>
          if bool_decide (name ∈ CLASSES) then
            tts <- (if is_remote name then
                      d_url <- section_of config module;;
                      construct name lang voice (Some (d_url !! "url"%string))
                    else construct name lang voice None);;
            validator_validate tts;;
            ret tts
          else raise (type_error "issubclass() arg 1 must be a class")
      | None => raise (type_error "issubclass() arg 1 must be a class")
      end
  end.

(** What [show_visimes] does, as seen from outside: a code sent at some
    elapsed time since the walk began, or a wait of some seconds. *)
Inductive Step : Type :=
| Sent (code : string) (elapsed : Q)
| Waited (seconds : Q).

(** The steps in a trace, for a walk that began at [start]. *)
Fixpoint steps (start : Q) (tr : list Event) : list Step :=
  match tr with
  | EvViseme c t :: tr' => Sent c (t - start) :: steps start tr'
  | EvSleep d :: tr' => Waited d :: steps start tr'
  | _ :: tr' => steps start tr'
  | [] => []
  end.

(** The steps expected of a walk that has reached [elapsed]: each code is
    sent first, then comes its wait, which lasts for what is left of the
    event's duration and is left out when nothing is left. *)
Fixpoint timeline (elapsed : Q) (pairs : list Viseme) : list Step :=
  match pairs with
  | [] => []
  | (code, duration) :: rest =>
      Sent code elapsed
      :: (if Qltb elapsed duration then [Waited (duration - elapsed)] else [])
      ++ timeline (wait_until elapsed duration) rest
  end.

(** Equal steps, up to the representation of the rationals. *)
Definition same_step (a b : Step) : Prop :=
  match a, b with
  | Sent c t, Sent c' t' => c = c' /\ (t == t')%Q
  | Waited d, Waited d' => (d == d')%Q
  | _, _ => False
  end.

Example dirname_tmp : Py.dirname "/tmp/tts.wav" = "/tmp".
Proof. reflexivity. Qed.

Example dirname_root : Py.dirname "/tts.wav" = "/".
Proof. reflexivity. Qed.

Example dirname_bare : Py.dirname "tts.wav" = "".
Proof. reflexivity. Qed.

Example join_plain : Py.path_join "/tmp/tts" "abc.pho" = "/tmp/tts/abc.pho".
Proof. reflexivity. Qed.

Example strip_both : Py.strip "  a b
" = "a b".
Proof. reflexivity. Qed.

(** *** Reasoning about statements *)

Local Open Scope list_scope.

Ltac run_step :=
  unfold bind, ret, raise, get, modify, emit, try_except in *; simpl in *.

Lemma bind_ok {A B} (m : M A) (k : A -> M B) w a w' :
  m w = (Ok a, w') -> bind m k w = k a w'.
Proof. intros H. unfold bind. by rewrite H. Qed.

(** *** The cache *)

Lemma clear_cache_ok w :
  (fs_isfile cache_dir (fs w) = true -> fs_isdir cache_dir (fs w) = true) ->
  exists w', clear_cache w = (Ok tt, w').
Proof.
  intros H. unfold clear_cache, fs_exists. run_step.
  destruct (fs_isfile cache_dir (fs w)) eqn:Hf; simpl.
  - rewrite H by done. simpl. eauto.
  - destruct (fs_isdir cache_dir (fs w)); simpl; eauto.
Qed.

(** C10: the constructor keeps a non-empty language selector and
    replaces an absent or empty one by ['en-us']. *)
Theorem TTS_init_lang (l v : option string) (w : World) :
  (fs_isfile cache_dir (fs w) = true -> fs_isdir cache_dir (fs w) = true) ->
  exists self w',
    TTS_init l v w = (Ok self, w')
    /\ (Py.truthy_opt l = false -> lang self = "en-us")
    /\ (forall s, l = Some s -> s <> "" -> lang self = s).
Proof.
  intros H. unfold TTS_init.
  set (w1 := set_enclosure Unset (set_terminated false (set_queue [] w))).
  destruct (clear_cache_ok w1) as [w' Hw']; [exact H |].
  exists (mkTTS (py_or l "en-us") v (Some "/tmp/tts.wav") IsNone), w'.
  split; [| split].
  - run_step. fold w1. by rewrite Hw'.
  - simpl. destruct l as [s |]; simpl; [| done].
    intros ->. done.
  - intros s -> Hs. simpl. destruct s; [done | reflexivity].
Qed.

Lemma synth_calls_snoc tr e :
  synth_calls (tr ++ [e]) = (synth_calls tr + if is_synth e then 1 else 0)%nat.
Proof.
  unfold synth_calls. rewrite filter_app, length_app.
  f_equal. destruct e; reflexivity.
Qed.

Lemma load_phonemes_frame key w :
  exists o logs,
    load_phonemes key w = (Ok o, set_fs (fs w) (fold_left (fun x e => record e x) logs w))
    /\ forallb is_log logs = true.
Proof.
  unfold load_phonemes, read_file. run_step.
  destruct (fs_exists (pho_path key) (fs w)).
  - destruct (fs_read (pho_path key) (fs w)) as [c | e].
    + exists (Some (Py.strip c)), []. by destruct w.
    + exists None, [EvLog "Failed to read .PHO from cache"]. by destruct w.
  - exists None, []. by destruct w.
Qed.

Lemma fold_record_trace logs w :
  trace (fold_left (fun x e => record e x) logs w) = (trace w ++ logs)%list.
Proof.
  revert w. induction logs as [| e logs IH]; intros w; simpl.
  - by rewrite app_nil_r.
  - rewrite IH. simpl. by rewrite <- app_assoc.
Qed.

Lemma fold_record_queue logs w :
  queue (fold_left (fun x e => record e x) logs w) = queue w.
Proof.
  revert w. induction logs as [| e logs IH]; intros w; simpl; [done |].
  by rewrite IH.
Qed.

(** On a hit [execute] is the lookup of the payload, which only logs,
    followed by [visime] and the submission of the job. *)
Lemma execute_hit_eq (sentence : string) (w : World) :
  fs_exists (wav_path sentence) (fs w) = true ->
  exists o logs,
    forallb is_log logs = true
    /\ execute sentence w =
       let w1 := set_fs (fs w)
                   (fold_left (fun x e => record e x) logs
                      (record (EvLog "TTS cache hit") w)) in
       match visime o with
       | Ok v => (Ok tt, set_queue (queue w1 ++ [(tts_type, wav_path sentence, v)]) w1)
       | Raise e => (Raise e, w1)
       end.
Proof.
  intros Hhit. unfold execute. run_step. rewrite Hhit. simpl.
  destruct (load_phonemes_frame (md5_hex sentence)
              (record (EvLog "TTS cache hit") w)) as (o & logs & Hload & Hlogs).
  exists o, logs. split; [exact Hlogs |].
  rewrite Hload. simpl. unfold call_visime, queue_put. run_step.
  by destruct (visime o).
Qed.

(** C8: on a cache hit [execute] leaves the file system as it found it
    and calls neither the curation policy nor the backend: all it adds
    to the trace are log lines. *)
Theorem execute_hit_no_write (sentence : string) (w : World) :
  fs_exists (wav_path sentence) (fs w) = true ->
  fs (execute sentence w).2 = fs w
  /\ exists logs,
       trace (execute sentence w).2 = (trace w ++ logs)%list
       /\ forallb is_log logs = true.
Proof.
  intros Hhit.
  destruct (execute_hit_eq sentence w Hhit) as (o & logs & Hlogs & ->).
  split.
  - by destruct (visime o).
  - exists (EvLog "TTS cache hit" :: logs). split; [| exact Hlogs].
    destruct (visime o); simpl; rewrite fold_record_trace; simpl;
      by rewrite <- app_assoc.
Qed.

(** C5, as amended: when the lookup misses and [get_tts] raises,
    [execute] raises the same exception, queues nothing, and adds no
    write of its own (no curation, no payload): the only call it made is
    the one to [get_tts], and the file system is the one the backend
    left, so it is unchanged exactly when the backend wrote nothing. *)
Theorem execute_synthesis_error (sentence : string) (w : World) e f :
  fs_exists (wav_path sentence) (fs w) = false ->
  get_tts sentence (wav_path sentence) (fs w) = (Raise e, f) ->
  (execute sentence w).1 = Raise e
  /\ queue (execute sentence w).2 = queue w
  /\ fs (execute sentence w).2 = f
  /\ trace (execute sentence w).2
     = (trace w ++ [EvSynth sentence (wav_path sentence)])%list
  /\ (fs (execute sentence w).2 = fs w <-> f = fs w).
Proof.
  intros Hmiss Hsynth. unfold execute, call_get_tts. run_step.
  rewrite Hmiss, Hsynth. simpl. done.
Qed.

Lemma synth_calls_logs tr logs :
  forallb is_log logs = true ->
  synth_calls (tr ++ logs) = synth_calls tr.
Proof.
  revert tr. induction logs as [| e logs IH]; intros tr H; simpl in *.
  - by rewrite app_nil_r.
  - apply andb_prop in H as [He Hl].
    change (e :: logs) with ([e] ++ logs). rewrite app_assoc, IH by done.
    rewrite synth_calls_snoc. destruct e; simpl in *; try done; lia.
Qed.

Lemma execute_synth_at_most_once (s : string) (w : World) :
  (synth_calls (trace (execute s w).2) <= S (synth_calls (trace w)))%nat.
Proof.
  destruct (fs_exists (wav_path s) (fs w)) eqn:Hc.
  - destruct (execute_hit_eq s w Hc) as (o & logs & Hl & ->).
    destruct (visime o); simpl; rewrite fold_record_trace; simpl;
      rewrite synth_calls_logs, synth_calls_snoc by done; simpl; lia.
  - unfold execute, call_get_tts, save_phonemes, call_curate_cache,
      write_file, call_visime, queue_put.
    run_step. rewrite Hc.
    repeat (case_match; run_step; simplify_eq);
      repeat first [rewrite synth_calls_snoc | progress simpl]; lia.
Qed.

(** C4, as amended: when the artifact is at the fingerprint-derived
    path once the first call is over, the second call of [execute]
    with the same utterance does not call [get_tts], so the two calls
    together call it at most once. *)
Theorem execute_twice_synth_once (s : string) (w : World) :
  fs_exists (wav_path s) (fs (execute s w).2) = true ->
  synth_calls (trace (execute s (execute s w).2).2)
  = synth_calls (trace (execute s w).2)
  /\ (synth_calls (trace (execute s (execute s w).2).2)
      <= S (synth_calls (trace w)))%nat.
Proof.
  intros Hhit.
  destruct (execute_hit_eq s _ Hhit) as (o & logs & Hl & Heq).
  assert (synth_calls (trace (execute s (execute s w).2).2)
          = synth_calls (trace (execute s w).2)) as Hsame.
  { rewrite Heq.
    destruct (visime o); simpl; rewrite fold_record_trace; simpl;
      rewrite synth_calls_logs, synth_calls_snoc by done; simpl; lia. }
  split; [exact Hsame |].
  rewrite Hsame. apply execute_synth_at_most_once.
Qed.

(** C2, as amended: when curation and the write succeed and the file
    can be read back, [load_phonemes] returns what [save_phonemes]
    stored with the white space at both ends removed. *)
Theorem save_then_load_strips (key phonemes : string) (w : World) f :
  curate_cache cache_dir (fs w) = (Ok tt, f) ->
  pho_path key ∉ unwritable f ->
  pho_path key ∉ unreadable f ->
  exists w1 w2,
    save_phonemes key phonemes w = (Ok tt, w1)
    /\ load_phonemes key w1 = (Ok (Some (Py.strip phonemes)), w2)
    /\ fs w2 = fs w1.
Proof.
  intros Hcur Hw Hr.
  unfold save_phonemes, load_phonemes, call_curate_cache, write_file,
    read_file, fs_write, fs_read, fs_exists, fs_isfile.
  run_step. rewrite Hcur. simpl.
  rewrite bool_decide_eq_false_2 by done. simpl.
  eexists _, _. split; [reflexivity |]. simpl.
  rewrite lookup_insert_eq.
  rewrite (bool_decide_eq_true_2 (is_Some (Some phonemes))) by eauto.
  simpl. rewrite (bool_decide_eq_false_2 _ Hr), lookup_insert_eq. done.
Qed.

(** *** The validator *)

(** C6, as amended: [validate] runs the instance check, the output
    path check, the language check and the connection check in this
    order; the first two raise an [AttributeError] whose message tells
    which check failed and leave the state alone; the path must end in
    [.wav], whatever the backend's artifact type is. *)
Theorem validate_order (tts : TTS) (w : World) :
  validate tts w =
    if negb is_tts_instance then
      (Raise (AttributeError
                ("tts must be instance of " ++ tts_class_name)%string), w)
    else if negb (wav_format (filename tts)) then
      (Raise (AttributeError
                ("file: " ++ py_str (filename tts)
                 ++ " must be in .wav format!")%string), w)
    else if negb (fs_isdir (Py.dirname (py_str (filename tts))) (fs w)) then
      (Raise (AttributeError
                ("filename: " ++ py_str (filename tts)
                 ++ " is not valid!")%string), w)
    else match validate_lang w with
         | (Ok _, w1) => validate_connection w1
         | (Raise e, w1) => (Raise e, w1)
         end.
Proof.
  unfold validate, validate_instance, validate_filename, fs_exists.
  run_step.
  destruct is_tts_instance; simpl; [| done].
  destruct (wav_format (filename tts)); simpl; [| done].
  destruct (fs_isdir _ (fs w)) eqn:Hd; simpl.
  - rewrite orb_true_r. simpl. reflexivity.
  - rewrite orb_false_r, andb_false_r. simpl. reflexivity.
Qed.

(** *** The playback thread *)

Lemma keeps_refl w : keeps w w.
Proof. by repeat split. Qed.

Lemma keeps_trans w1 w2 w3 : keeps w1 w2 -> keeps w2 w3 -> keeps w1 w3.
Proof. unfold keeps. intros (? & ? & ? & ?) (? & ? & ? & ?). repeat split; congruence. Qed.

Lemma keeps_audio_refl w : keeps_audio w w.
Proof. by split. Qed.

Lemma keeps_audio_trans w1 w2 w3 :
  keeps_audio w1 w2 -> keeps_audio w2 w3 -> keeps_audio w1 w3.
Proof. unfold keeps_audio. intros [? ?] [? ?]. split; congruence. Qed.

Lemma plays_snoc tr e : is_play e = false -> plays (tr ++ [e]) = plays tr.
Proof.
  intros H. unfold plays. rewrite filter_app, filter_cons_False, filter_nil.
  - by rewrite app_nil_r.
  - by rewrite H.
Qed.

Ltac frame_done :=
  repeat split; simpl; rewrite ?plays_snoc by done; (done || congruence).

Lemma walk_cons start code duration rest w :
  walk start ((code, duration) :: rest) w =
    if check_for_signal "stoppingTTS" (-1) (polls w) (clock w)
    then (Ok tt, bump_polls w)
    else if check_for_signal "buttonPress" 0 (S (polls w)) (clock w)
    then (Ok tt, bump_polls (bump_polls w))
    else match enclosure w with
         | Unset => (Raise no_enclosure, bump_polls (bump_polls w))
         | _ => walk start rest (after_event start code duration w)
         end.
Proof.
  simpl. unfold poll, if_enclosure, mouth_viseme, now, sleep, after_event.
  run_step.
  destruct (check_for_signal "stoppingTTS" _ _ _); [done |].
  destruct (check_for_signal "buttonPress" _ _ _); [done |].
  destruct (enclosure w) eqn:He; simpl; rewrite He; simpl; [done | |];
    destruct (Qltb (clock w - start) duration); reflexivity.
Qed.

Lemma after_event_keeps start code duration w :
  keeps w (after_event start code duration w)
  /\ keeps_audio w (after_event start code duration w).
Proof.
  unfold after_event, keeps, keeps_audio.
  destruct (enclosure w) eqn:He, (Qltb (clock w - start) duration);
    frame_done.
Qed.

Lemma walk_keeps start pairs w :
  keeps w (walk start pairs w).2 /\ keeps_audio w (walk start pairs w).2.
Proof.
  revert w. induction pairs as [| [code duration] rest IH]; intros w.
  - split; [apply keeps_refl | apply keeps_audio_refl].
  - rewrite walk_cons.
    destruct (check_for_signal "stoppingTTS" _ _ _); [done |].
    destruct (check_for_signal "buttonPress" _ _ _); [done |].
    destruct (after_event_keeps start code duration w) as [K A].
    destruct (IH (after_event start code duration w)) as [K' A'].
    destruct (enclosure w) eqn:He; [done | |];
      (split; [eapply keeps_trans | eapply keeps_audio_trans]; eassumption).
Qed.

(** With the enclosure attribute assigned the walk cannot raise. *)
Lemma walk_returns start pairs w :
  enclosure w <> Unset -> (walk start pairs w).1 = Ok tt.
Proof.
  revert w. induction pairs as [| [code duration] rest IH]; intros w He.
  - done.
  - rewrite walk_cons.
    destruct (check_for_signal "stoppingTTS" _ _ _); [done |].
    destruct (check_for_signal "buttonPress" _ _ _); [done |].
    destruct (after_event_keeps start code duration w) as [(_ & _ & _ & E) _].
    destruct (enclosure w) eqn:Hw; [done | |];
      apply IH; rewrite E; done.
Qed.

Lemma show_visimes_walk pairs w :
  show_visimes pairs w = walk (clock w) pairs w.
Proof. reflexivity. Qed.

Lemma blink_keeps rate w :
  keeps w (blink rate w).2 /\ keeps_audio w (blink rate w).2.
Proof.
  unfold blink, if_enclosure, draw, keeps, keeps_audio. run_step.
  destruct (enclosure w) eqn:He; simpl; [frame_done | frame_done |].
  destruct (Qltb (random (draws w)) rate); frame_done.
Qed.

Lemma blink_returns rate w :
  enclosure w <> Unset -> (blink rate w).1 = Ok tt.
Proof.
  intros He. unfold blink, if_enclosure, draw. run_step.
  destruct (enclosure w); simpl; [done | done |].
  by destruct (Qltb (random (draws w)) rate).
Qed.

Lemma communicate_keeps w :
  keeps w (communicate w).2 /\ keeps_audio w (communicate w).2.
Proof.
  unfold communicate, keeps, keeps_audio. run_step.
  destruct (handle w) eqn:Hh; frame_done.
Qed.

Lemma start_player_keeps player data w :
  keeps w (start_player player data w).2.
Proof. unfold start_player, keeps. destruct (player data); frame_done. Qed.

Lemma walk_opt_keeps visimes w :
  keeps w ((if has_visimes visimes
            then show_visimes (default [] visimes) else ret tt) w).2
  /\ keeps_audio w ((if has_visimes visimes
                     then show_visimes (default [] visimes) else ret tt) w).2.
Proof.
  destruct (has_visimes visimes).
  - rewrite show_visimes_walk. apply walk_keeps.
  - split; [apply keeps_refl | apply keeps_audio_refl].
Qed.

Lemma run_body_cons w kind data visimes q :
  queue w = (kind, data, visimes) :: q ->
  run_body w =
    (blink (1 # 2);;
     (if String.eqb kind "wav" then start_player play_wav data
      else if String.eqb kind "mp3" then start_player play_mp3 data
      else ret tt);;
     (if has_visimes visimes
      then show_visimes (default [] visimes) else ret tt);;
     communicate;;
     blink (1 # 5)) (set_queue q w).
Proof.
  intros H. unfold run_body. unfold bind at 1. unfold queue_get.
  rewrite H. reflexivity.
Qed.

Lemma bind_keeps {A B} (m : M A) (k : A -> M B) w :
  keeps w (m w).2 ->
  (forall a w', keeps w' (k a w').2) ->
  keeps w (bind m k w).2.
Proof.
  intros Hm Hk. unfold bind. destruct (m w) as [[a | e] w'] eqn:E; simpl in *.
  - eapply keeps_trans; [exact Hm | apply Hk].
  - exact Hm.
Qed.

Lemma run_body_keeps w j q :
  queue w = j :: q ->
  keeps (set_queue q w) (run_body w).2.
Proof.
  destruct j as [[kind data] visimes]. intros H.
  rewrite (run_body_cons _ _ _ _ _ H).
  apply bind_keeps; [apply blink_keeps |]. intros _ w1.
  apply bind_keeps.
  { destruct (String.eqb kind "wav"); [apply start_player_keeps |].
    destruct (String.eqb kind "mp3"); [apply start_player_keeps |].
    apply keeps_refl. }
  intros _ w2. apply bind_keeps; [apply walk_opt_keeps |].
  intros _ w3. apply bind_keeps; [apply communicate_keeps |].
  intros _ w4. apply blink_keeps.
Qed.

(** One turn of the loop never raises, whatever the job does, and it
    takes exactly the first job off the queue. *)
Lemma run_iteration_continues w j q :
  queue w = j :: q ->
  (run_iteration w).1 = Ok tt
  /\ queue (run_iteration w).2 = q
  /\ terminated (run_iteration w).2 = terminated w.
Proof.
  intros H. pose proof (run_body_keeps w j q H) as (_ & Hq & Ht & _).
  unfold run_iteration, try_except, ret.
  destruct (run_body w) as [[[] | e] w'] eqn:E; simpl in *; done.
Qed.

Lemma run_iteration_ok w : (run_iteration w).1 = Ok tt.
Proof.
  unfold run_iteration, try_except, ret.
  by destruct (run_body w) as [[[] | e] w'].
Qed.

Lemma run_loop_next n w :
  terminated w = false ->
  run_loop (S n) w = run_loop n (run_iteration w).2.
Proof.
  intros Ht. simpl. unfold bind at 1. unfold get. rewrite Ht.
  unfold bind. pose proof (run_iteration_ok w) as H.
  destruct (run_iteration w) as [r w']. simpl in H. by subst r.
Qed.

(** Once the flag is set the loop is left at its next test. *)
Lemma run_loop_exits fuel w :
  terminated w = true -> run_loop fuel w = (Ok true, w).
Proof. intros Ht. destruct fuel; simpl; run_step; by rewrite Ht. Qed.

(** C3: with a job still queued, [stop] sets the flag and then raises
    [NameError] at the name [queue]; no job is taken off the queue. *)
Theorem stop_raises_with_jobs (j : Job) (q : list Job) (w : World) :
  queue w = j :: q ->
  (stop w).1 = Raise (NameError "queue")
  /\ terminated (stop w).2 = true
  /\ queue (stop w).2 = j :: q.
Proof.
  intros Hq. unfold stop. run_step. rewrite Hq. simpl.
  repeat split. exact Hq.
Qed.

Lemma stop_empty_queue w :
  queue w = [] -> stop w = (Ok tt, set_terminated true w).
Proof. intros H. unfold stop. run_step. by rewrite H. Qed.

Lemma bind_keeps_audio {A B} (m : M A) (k : A -> M B) w :
  keeps_audio w (m w).2 ->
  (forall a w', keeps_audio w' (k a w').2) ->
  keeps_audio w (bind m k w).2.
Proof.
  intros Hm Hk. unfold bind. destruct (m w) as [[a | e] w'] eqn:E; simpl in *.
  - eapply keeps_audio_trans; [exact Hm | apply Hk].
  - exact Hm.
Qed.

(** C9, as amended: a job whose kind is neither ['wav'] nor ['mp3']
    starts no player and the loop goes on to the next job; when the
    enclosure is connected and no earlier job has bound the local [p],
    the walk over its visemes (if it has any) is run and the job then
    ends in the [UnboundLocalError] that [run] swallows. *)
Theorem run_unknown_kind w kind data visimes q :
  queue w = (kind, data, visimes) :: q ->
  kind <> "wav" -> kind <> "mp3" ->
  (run_iteration w).1 = Ok tt
  /\ queue (run_iteration w).2 = q
  /\ terminated (run_iteration w).2 = terminated w
  /\ plays (trace (run_iteration w).2) = plays (trace w)
  /\ (enclosure w = IsAPI -> handle w = None ->
      let w1 := (blink (1 # 2) (set_queue q w)).2 in
      let w2 := if has_visimes visimes
                then (show_visimes (default [] visimes) w1).2 else w1 in
      run_body w = (Raise (UnboundLocalError "p"), w2)).
Proof.
  intros Hq Hwav Hmp3.
  destruct (run_iteration_continues w _ _ Hq) as (H1 & H2 & H3).
  apply String.eqb_neq in Hwav, Hmp3.
  split; [done | split; [done | split; [done | split]]].
  - assert (keeps_audio (set_queue q w) (run_body w).2) as [_ Hp].
    { rewrite (run_body_cons _ _ _ _ _ Hq), Hwav, Hmp3.
      apply bind_keeps_audio; [apply blink_keeps |]. intros _ w1.
      apply bind_keeps_audio; [apply keeps_audio_refl |]. intros _ w2.
      apply bind_keeps_audio; [apply walk_opt_keeps |]. intros _ w3.
      apply bind_keeps_audio; [apply communicate_keeps |]. intros _ w4.
      apply blink_keeps. }
    unfold run_iteration, try_except, ret.
    destruct (run_body w) as [[[] | e] w']; exact Hp.
  - intros He Hh w1 w2.
    rewrite (run_body_cons _ _ _ _ _ Hq), Hwav, Hmp3.
    destruct (blink_keeps (1 # 2) (set_queue q w))
      as [(_ & _ & _ & Ke) [Kh _]].
    fold w1 in Ke, Kh. simpl in Ke, Kh.
    assert (blink (1 # 2) (set_queue q w) = (Ok tt, w1)) as E1.
    { pose proof (blink_returns (1 # 2) (set_queue q w)) as Hb.
      subst w1. destruct (blink (1 # 2) (set_queue q w)) as [r1 w1'].
      simpl in *. rewrite Hb; [done | congruence]. }
    assert ((if has_visimes visimes
             then show_visimes (default [] visimes) else ret tt) w1
            = (Ok tt, w2)) as E2.
    { subst w2. destruct (has_visimes visimes); [| done].
      pose proof (walk_returns (clock w1) (default [] visimes) w1) as Hr.
      rewrite show_visimes_walk.
      destruct (walk (clock w1) (default [] visimes) w1) as [r2 w2'].
      simpl in *. rewrite Hr; [done | congruence]. }
    assert (handle w2 = None) as Hh2.
    { destruct (walk_opt_keeps visimes w1) as [_ [Kh2 _]].
      rewrite E2 in Kh2. simpl in Kh2. congruence. }
    rewrite (bind_ok _ _ _ _ _ E1).
    unfold bind at 1. unfold ret at 1.
    rewrite (bind_ok _ _ _ _ _ E2).
    unfold communicate, bind, get, raise. simpl. by rewrite Hh2.
Qed.

(** *** Viseme timing *)

Lemma Qltb_lt a b : Qltb a b = true <-> (a < b)%Q.
Proof.
  unfold Qltb. rewrite negb_true_iff, <- not_true_iff_false, Qle_bool_iff.
  split; [apply Qnot_le_lt | apply Qlt_not_le].
Qed.

Lemma Qltb_ge a b : Qltb a b = false <-> (b <= a)%Q.
Proof.
  unfold Qltb. rewrite negb_false_iff. apply Qle_bool_iff.
Qed.

Lemma emissions_app tr1 tr2 :
  emissions (tr1 ++ tr2) = emissions tr1 ++ emissions tr2.
Proof.
  induction tr1 as [| e tr1 IH]; simpl; [done |].
  destruct e; simpl; by rewrite ?IH.
Qed.

(** After one turn the elapsed time is the one [wait_until] gives, and
    the turn sent exactly the event's code, at the time it began. *)
Lemma after_event_elapsed start code duration w m :
  enclosure w = IsAPI ->
  (clock w - start == m)%Q ->
  (clock (after_event start code duration w) - start
   == wait_until m duration)%Q
  /\ emissions (trace (after_event start code duration w))
     = emissions (trace w) ++ [(code, clock w)]
  /\ enclosure (after_event start code duration w) = IsAPI.
Proof.
  intros He Hm. unfold after_event, wait_until. rewrite He.
  destruct (Qltb (clock w - start) duration) eqn:E1,
           (Qltb m duration) eqn:E2; simpl;
    rewrite ?emissions_app; simpl; rewrite ?app_nil_r;
    (split; [| done]).
  - lra.
  - apply Qltb_lt in E1. apply Qltb_ge in E2. lra.
  - apply Qltb_ge in E1. apply Qltb_lt in E2. lra.
  - exact Hm.
Qed.

Lemma walk_schedule pairs :
  (forall name life n t, check_for_signal name life n t = false) ->
  forall start w m,
    enclosure w = IsAPI ->
    (clock w - start == m)%Q ->
    exists es,
      emissions (trace (walk start pairs w).2) = emissions (trace w) ++ es
      /\ Forall2 (fun e x => e.1 = x.1 /\ (e.2 - start == x.2)%Q)
                 es (schedule m pairs).
Proof.
  intros Hquiet.
  induction pairs as [| [code duration] rest IH]; intros start w m He Hm.
  - exists []. simpl. by rewrite app_nil_r.
  - rewrite walk_cons, !Hquiet, He.
    destruct (after_event_elapsed start code duration w m He Hm)
      as (Hc & Hem & He').
    destruct (IH start _ _ He' Hc) as (es & Hes & Hall).
    exists ((code, clock w) :: es). split.
    + rewrite Hes, Hem, <- app_assoc. reflexivity.
    + simpl. constructor; [| exact Hall]. simpl. by split.
Qed.

Lemma Qltb_compat a a' d : (a == a')%Q -> Qltb a d = Qltb a' d.
Proof.
  intros H. apply eq_true_iff_eq. rewrite !Qltb_lt. by rewrite H.
Qed.

Lemma steps_app start tr1 tr2 :
  steps start (tr1 ++ tr2) = steps start tr1 ++ steps start tr2.
Proof.
  induction tr1 as [| e tr1 IH]; simpl; [done |].
  destruct e; simpl; by rewrite ?IH.
Qed.

(** One turn of the walk adds the code and then, when the event's
    duration is not reached yet, the wait for what is left of it. *)
Lemma after_event_trace start code duration w :
  enclosure w = IsAPI ->
  trace (after_event start code duration w)
  = trace w
    ++ EvViseme code (clock w)
       :: (if Qltb (clock w - start) duration
           then [EvSleep (duration - (clock w - start))] else []).
Proof.
  intros He. unfold after_event. rewrite He.
  destruct (Qltb (clock w - start) duration); simpl;
    by rewrite <- ?app_assoc.
Qed.

Lemma walk_timeline pairs :
  (forall name life n t, check_for_signal name life n t = false) ->
  forall start w m,
    enclosure w = IsAPI ->
    (clock w - start == m)%Q ->
    exists evs,
      trace (walk start pairs w).2 = trace w ++ evs
      /\ length (steps start evs) = length evs
      /\ Forall2 same_step (steps start evs) (timeline m pairs)
      /\ (clock (walk start pairs w).2 - start
          == fold_left wait_until (map snd pairs) m)%Q.
Proof.
  intros Hquiet.
  induction pairs as [| [code duration] rest IH]; intros start w m He Hm.
  - exists []. simpl. rewrite app_nil_r. repeat split; [constructor | done].
  - rewrite walk_cons, !Hquiet, He.
    destruct (after_event_elapsed start code duration w m He Hm)
      as (Hc & _ & He').
    destruct (IH start _ _ He' Hc) as (evs & Htr & Hlen & Hall & Hclock).
    pose proof (after_event_trace start code duration w He) as Hone.
    rewrite (Qltb_compat _ m duration Hm) in Hone.
    exists (EvViseme code (clock w)
            :: (if Qltb m duration
                then [EvSleep (duration - (clock w - start))] else [])
            ++ evs).
    split; [| split; [| split]].
    + rewrite Htr, Hone, <- app_assoc. reflexivity.
    + destruct (Qltb m duration); simpl; by rewrite Hlen.
    + cbn [timeline]. destruct (Qltb m duration); simpl.
      * constructor; [by split |]. constructor; [| exact Hall].
        simpl. by rewrite Hm.
      * constructor; [by split | exact Hall].
    + exact Hclock.
Qed.

(** C1, as amended: with no signal seen and the enclosure connected,
    [show_visimes] sends every code, in order, each one before its own
    wait: a code goes out at the elapsed time the waits so far have
    reached (none for the first), and the wait that follows lasts until
    the elapsed time reaches that event's duration, the last event's
    wait included; nothing else is done, and the walk ends when the
    elapsed time is the largest it was made to reach. *)
Theorem show_visimes_schedule (pairs : list Viseme) (w : World) :
  (forall name life n t, check_for_signal name life n t = false) ->
  enclosure w = IsAPI ->
  (show_visimes pairs w).1 = Ok tt
  /\ (exists es,
        emissions (trace (show_visimes pairs w).2) = emissions (trace w) ++ es
        /\ Forall2 (fun e x => e.1 = x.1 /\ (e.2 - clock w == x.2)%Q)
                   es (schedule 0 pairs))
  /\ (exists evs,
        trace (show_visimes pairs w).2 = trace w ++ evs
        /\ length (steps (clock w) evs) = length evs
        /\ Forall2 same_step (steps (clock w) evs) (timeline 0 pairs))
  /\ (clock (show_visimes pairs w).2 - clock w
      == fold_left wait_until (map snd pairs) 0)%Q.
Proof.
  intros Hquiet He. rewrite show_visimes_walk.
  destruct (walk_timeline pairs Hquiet (clock w) w 0 He)
    as (evs & Htr & Hlen & Hall & Hclock); [lra |].
  split; [| split; [| split]].
  - apply walk_returns. congruence.
  - apply walk_schedule; [exact Hquiet | exact He | lra].
  - exists evs. by repeat split.
  - exact Hclock.
Qed.

(** *** More on the cache *)

Lemma chars_app (a b : string) :
  list_ascii_of_string (a ++ b)%string
  = list_ascii_of_string a ++ list_ascii_of_string b.
Proof. induction a as [| c a IH]; simpl; [done |]. by rewrite IH. Qed.

Lemma strip_prefix_app (t s : list ascii) :
  Py.strip_prefix t (t ++ s) = Some s.
Proof.
  induction t as [| c t IH]; simpl; [done |].
  by rewrite Ascii.eqb_refl.
Qed.

Lemma entry_name_chars name :
  entry_name name = true ->
  exists c l, list_ascii_of_string name = c :: l
              /\ Py.is_slash c = false
              /\ forallb (fun a => negb (Py.is_slash a)) (c :: l) = true.
Proof.
  unfold entry_name. destruct (list_ascii_of_string name) as [| c l]; [done |].
  intros H. exists c, l. split; [done |]. split; [| done].
  simpl in H. apply andb_prop in H as [H _]. by apply negb_true_iff.
Qed.

(** Joining a directory with an entry name gives a path that
    [clear_cache] recognises as an entry of that directory. *)
Lemma is_child_join d name :
  entry_name name = true -> is_child d (Py.path_join d name) = true.
Proof.
  intros Hn. destruct (entry_name_chars name Hn) as (c & l & Hc & Hs & Hall).
  assert (Py.startswith name "/" = false) as Hstart.
  { unfold Py.startswith. rewrite Hc. simpl. fold Py.slash.
    unfold Py.is_slash in Hs. by rewrite Hs. }
  unfold is_child, Py.path_join. rewrite Hstart. simpl.
  destruct (negb (Py.truthy d) || Py.endswith d "/");
    rewrite !chars_app; simpl; rewrite ?app_nil_r.
  - rewrite strip_prefix_app, Hc. exact Hall.
  - change (list_ascii_of_string d ++ "/"%char :: list_ascii_of_string name)
      with (list_ascii_of_string d ++ ["/"%char] ++ list_ascii_of_string name).
    rewrite app_assoc, strip_prefix_app, Hc. exact Hall.
Qed.

Lemma clear_cache_at_dir w :
  fs_isdir cache_dir (fs w) = true ->
  clear_cache w = (Ok tt, set_fs (fs_unlink_children cache_dir (fs w)) w).
Proof.
  intros Hd. unfold clear_cache, fs_exists. run_step.
  by rewrite Hd, orb_true_r.
Qed.

Lemma unlinked_entry d name f :
  entry_name name = true ->
  fs_isfile (Py.path_join d name) (fs_unlink_children d f) = false.
Proof.
  intros Hn. unfold fs_isfile. apply bool_decide_eq_false_2. simpl.
  intros [c Hc]. apply map_lookup_filter_Some in Hc as [_ Hc].
  simpl in Hc. by rewrite is_child_join in Hc.
Qed.

Lemma unlinked_other d p f :
  is_child d p = false ->
  files (fs_unlink_children d f) !! p = files f !! p.
Proof.
  intros Hp. simpl. destruct (files f !! p) as [c |] eqn:E.
  - apply map_lookup_filter_Some. by split.
  - apply map_lookup_filter_None. by left.
Qed.

(** X1: with the cache directory in place, [clear_cache] returns
    normally and no entry of the directory is a regular file any more. *)
Theorem clear_cache_removes_entries (w : World) (name : string) :
  fs_isdir cache_dir (fs w) = true ->
  entry_name name = true ->
  (clear_cache w).1 = Ok tt
  /\ fs_isfile (Py.path_join cache_dir name) (fs (clear_cache w).2) = false.
Proof.
  intros Hd Hn. rewrite (clear_cache_at_dir w Hd). simpl.
  split; [done | by apply unlinked_entry].
Qed.

(** X2: [clear_cache] touches nothing but the regular files directly in
    the cache directory: every other path keeps its content, the
    directories stay, and with no cache directory nothing changes. *)
Theorem clear_cache_keeps_others (w : World) (p : string) :
  (is_child cache_dir p = false ->
   files (fs (clear_cache w).2) !! p = files (fs w) !! p)
  /\ dirs (fs (clear_cache w).2) = dirs (fs w)
  /\ (fs_exists cache_dir (fs w) = false -> clear_cache w = (Ok tt, w)).
Proof.
  unfold clear_cache. run_step.
  destruct (fs_exists cache_dir (fs w)); simpl; [| done].
  destruct (fs_isdir cache_dir (fs w)); simpl; [| done].
  split; [| done]. intros Hp. by apply unlinked_other.
Qed.

Lemma execute_miss_trace (s : string) (w : World) :
  fs_exists (wav_path s) (fs w) = false ->
  exists rest,
    trace (execute s w).2 = trace w ++ EvSynth s (wav_path s) :: rest.
Proof.
  intros Hmiss.
  unfold execute, call_get_tts, save_phonemes, call_curate_cache,
    write_file, call_visime, queue_put.
  run_step. rewrite Hmiss.
  repeat (case_match; run_step; simplify_eq);
    eexists; simpl; rewrite <- ?app_assoc; simpl; reflexivity.
Qed.

(** X3: a backend instance that has just been constructed finds nothing
    in its cache: the first [execute] of any utterance calls [get_tts],
    with the fingerprint-derived path as destination. *)
Theorem fresh_instance_synthesizes (l v : option string) (w : World)
        (s : string) :
  fs_isdir cache_dir (fs w) = true ->
  entry_name (md5_hex s ++ tts_type)%string = true ->
  fs_isdir (wav_path s) (fs w) = false ->
  exists self w1,
    TTS_init l v w = (Ok self, w1)
    /\ queue w1 = []
    /\ fs_exists (wav_path s) (fs w1) = false
    /\ exists rest,
         trace (execute s w1).2
         = trace w1 ++ EvSynth s (wav_path s) :: rest.
Proof.
  intros Hd Hn Hnd.
  set (w0 := set_enclosure Unset (set_terminated false (set_queue [] w))).
  set (w1 := set_fs (fs_unlink_children cache_dir (fs w0)) w0).
  assert (fs_exists (wav_path s) (fs w1) = false) as Hmiss.
  { unfold fs_exists, wav_path. subst w1. simpl.
    rewrite unlinked_entry by done. simpl. exact Hnd. }
  exists (mkTTS (py_or l "en-us") v (Some "/tmp/tts.wav"%string) IsNone), w1.
  split; [| split; [done | split; [exact Hmiss |]]].
  - unfold TTS_init. run_step. fold w0.
    by rewrite (clear_cache_at_dir w0 Hd).
  - by apply execute_miss_trace.
Qed.

(** X4: [load_phonemes] never raises and never changes the file system
    or the queue; a payload that is missing or cannot be read gives
    [None]. *)
Theorem load_phonemes_never_raises (key : string) (w : World) :
  exists o,
    (load_phonemes key w).1 = Ok o
    /\ fs (load_phonemes key w).2 = fs w
    /\ queue (load_phonemes key w).2 = queue w
    /\ (fs_exists (pho_path key) (fs w) = false -> o = None)
    /\ (pho_path key ∈ unreadable (fs w) -> o = None).
Proof.
  unfold load_phonemes, read_file, fs_read. run_step.
  destruct (fs_exists (pho_path key) (fs w)); simpl.
  - destruct (bool_decide (pho_path key ∈ unreadable (fs w))) eqn:Hr; simpl.
    + exists None. repeat split; done.
    + apply bool_decide_eq_false in Hr.
      destruct (files (fs w) !! pho_path key) as [c |]; simpl;
        eexists; repeat split; done.
  - exists None. repeat split; done.
Qed.

(** X5: when the lookup misses and the backend delivers, the job that
    [execute] queues carries the path the backend returned, not the one
    it was given, and it goes to the end of the queue; this holds
    whether or not the payload could be written to the cache. *)
Theorem execute_miss_submits (s : string) (w : World) wf ph f v :
  fs_exists (wav_path s) (fs w) = false ->
  get_tts s (wav_path s) (fs w) = (Ok (wf, ph), f) ->
  (Py.truthy_opt ph = true ->
   exists f', curate_cache cache_dir f = (Ok tt, f')) ->
  visime ph = Ok v ->
  (execute s w).1 = Ok tt
  /\ queue (execute s w).2 = queue w ++ [(tts_type, wf, v)].
Proof.
  intros Hmiss Hsynth Hcur Hv.
  unfold execute, call_get_tts, save_phonemes, call_curate_cache,
    write_file, call_visime, queue_put, fs_write.
  run_step. rewrite Hmiss, Hsynth. simpl.
  destruct (Py.truthy_opt ph); simpl.
  - destruct Hcur as [f' Hf']; [done |]. rewrite Hf'. simpl.
    destruct (bool_decide (_ ∈ unwritable f')); simpl; by rewrite Hv.
  - by rewrite Hv.
Qed.

(** X6: the curation runs outside the [try] of [save_phonemes]: when it
    raises, [execute] raises too and queues nothing, although the audio
    had been synthesized; nothing is written after the failure. *)
Theorem execute_curation_error (s : string) (w : World) wf ph f e f' :
  fs_exists (wav_path s) (fs w) = false ->
  get_tts s (wav_path s) (fs w) = (Ok (wf, ph), f) ->
  Py.truthy_opt ph = true ->
  curate_cache cache_dir f = (Raise e, f') ->
  (execute s w).1 = Raise e
  /\ queue (execute s w).2 = queue w
  /\ fs (execute s w).2 = f'.
Proof.
  intros Hmiss Hsynth Hph Hcur.
  unfold execute, call_get_tts, save_phonemes, call_curate_cache.
  run_step. rewrite Hmiss, Hsynth. simpl. rewrite Hph. simpl.
  by rewrite Hcur.
Qed.

(** X7: a payload that is [None] or empty is not cached: on such a miss
    [execute] neither runs the curation nor writes a file. *)
Theorem execute_no_payload_no_write (s : string) (w : World) wf ph f :
  fs_exists (wav_path s) (fs w) = false ->
  get_tts s (wav_path s) (fs w) = (Ok (wf, ph), f) ->
  Py.truthy_opt ph = false ->
  fs (execute s w).2 = f
  /\ trace (execute s w).2 = trace w ++ [EvSynth s (wav_path s)].
Proof.
  intros Hmiss Hsynth Hph.
  unfold execute, call_get_tts, call_visime, queue_put.
  run_step. rewrite Hmiss, Hsynth. simpl. rewrite Hph. simpl.
  by destruct (visime ph).
Qed.

(** X8: [execute] only ever appends to the queue: when it returns it has
    added exactly one job, of the backend's type, behind the jobs that
    were waiting; when it raises the queue is as it was. *)
Theorem execute_appends_one_job (s : string) (w : World) :
  match (execute s w).1 with
  | Ok _ => exists wf v, queue (execute s w).2 = queue w ++ [(tts_type, wf, v)]
  | Raise _ => queue (execute s w).2 = queue w
  end.
Proof.
  destruct (fs_exists (wav_path s) (fs w)) eqn:Hc.
  - destruct (execute_hit_eq s w Hc) as (o & logs & _ & ->).
    destruct (visime o); simpl.
    + eexists _, _. by rewrite fold_record_queue.
    + by rewrite fold_record_queue.
  - unfold execute, call_get_tts, save_phonemes, call_curate_cache,
      write_file, call_visime, queue_put.
    run_step. rewrite Hc.
    repeat (case_match; run_step; simplify_eq); try done;
      eexists _, _; reflexivity.
Qed.

(** *** More on the playback thread *)

Lemma bind_rel (R : World -> World -> Prop) {A B} (m : M A) (k : A -> M B) w :
  (forall w1 w2 w3, R w1 w2 -> R w2 w3 -> R w1 w3) ->
  R w (m w).2 ->
  (forall a w', R w' (k a w').2) ->
  R w (bind m k w).2.
Proof.
  intros Htrans Hm Hk. unfold bind.
  destruct (m w) as [[a | e] w'] eqn:E; simpl in *.
  - eapply Htrans; [exact Hm | apply Hk].
  - exact Hm.
Qed.

Lemma quiet_refl w : quiet w w.
Proof. by repeat split. Qed.

Lemma quiet_trans w1 w2 w3 : quiet w1 w2 -> quiet w2 w3 -> quiet w1 w3.
Proof.
  unfold quiet. intros (? & ? & ?) (? & ? & ?). repeat split; congruence.
Qed.

Lemma emissions_snoc tr e :
  (forall c t, e <> EvViseme c t) -> emissions (tr ++ [e]) = emissions tr.
Proof.
  intros H. rewrite emissions_app. destruct e; simpl;
    rewrite ?app_nil_r; try done. by destruct (H code at_time).
Qed.

Lemma audio_snoc tr e : is_audio e = false -> audio (tr ++ [e]) = audio tr.
Proof.
  intros H. unfold audio. rewrite filter_app, filter_cons_False, filter_nil.
  - by rewrite app_nil_r.
  - by rewrite H.
Qed.

Lemma audio_snoc_audio tr e :
  is_audio e = true -> audio (tr ++ [e]) = audio tr ++ [e].
Proof.
  intros H. unfold audio. by rewrite filter_app, filter_cons_True, filter_nil.
Qed.

Lemma blink_quiet rate w :
  quiet w (blink rate w).2 /\ audio (trace (blink rate w).2) = audio (trace w).
Proof.
  unfold blink, if_enclosure, draw, quiet. run_step.
  destruct (enclosure w); simpl; [done | done |].
  destruct (Qltb (random (draws w)) rate); simpl;
    rewrite ?emissions_snoc, ?audio_snoc by done; done.
Qed.

Lemma start_player_quiet player data w :
  quiet w (start_player player data w).2.
Proof.
  unfold start_player, quiet. destruct (player data); simpl;
    rewrite ?emissions_snoc by done; done.
Qed.

Lemma communicate_quiet w : quiet w (communicate w).2.
Proof.
  unfold communicate, quiet. run_step.
  destruct (handle w); simpl; rewrite ?emissions_snoc by done; done.
Qed.

Lemma after_event_audio start code duration w :
  audio (trace (after_event start code duration w)) = audio (trace w).
Proof.
  unfold after_event.
  destruct (enclosure w), (Qltb (clock w - start) duration); simpl;
    rewrite ?audio_snoc by done; done.
Qed.

Lemma walk_audio start pairs w :
  audio (trace (walk start pairs w).2) = audio (trace w).
Proof.
  revert w. induction pairs as [| [code duration] rest IH]; intros w.
  - done.
  - rewrite walk_cons.
    destruct (check_for_signal "stoppingTTS" _ _ _); [done |].
    destruct (check_for_signal "buttonPress" _ _ _); [done |].
    destruct (enclosure w) eqn:He; [done | |];
      rewrite IH; apply after_event_audio.
Qed.

Lemma walk_opt_audio visimes w :
  audio (trace ((if has_visimes visimes
                 then show_visimes (default [] visimes) else ret tt) w).2)
  = audio (trace w).
Proof.
  destruct (has_visimes visimes); [| done].
  rewrite show_visimes_walk. apply walk_audio.
Qed.

Lemma walk_opt_returns visimes w :
  enclosure w <> Unset ->
  ((if has_visimes visimes
    then show_visimes (default [] visimes) else ret tt) w).1 = Ok tt.
Proof.
  intros He. destruct (has_visimes visimes); [| done].
  rewrite show_visimes_walk. by apply walk_returns.
Qed.

Lemma pair_eta {A} (x : result A * World) : x = (x.1, x.2).
Proof. by destruct x. Qed.

(** One turn of the loop on a job whose player starts: the player is
    started, then waited for, and nothing else reaches the audio device. *)
Lemma run_iteration_plays w kind data visimes q pl h :
  queue w = (kind, data, visimes) :: q ->
  enclosure w <> Unset ->
  player_for kind = Some pl ->
  pl data = Ok h ->
  audio (trace (run_iteration w).2)
  = audio (trace w) ++ [EvPlay h; EvCommunicate h]
  /\ handle (run_iteration w).2 = Some h.
Proof.
  intros Hq He Hpl Hh.
  set (w1 := (blink (1 # 2) (set_queue q w)).2).
  set (w2 := set_handle h (record (EvPlay h) w1)).
  set (m3 := if has_visimes visimes
             then show_visimes (default [] visimes) else ret tt).
  set (w3 := (m3 w2).2).
  set (w4 := record (EvCommunicate h) w3).
  destruct (blink_keeps (1 # 2) (set_queue q w)) as [(_ & _ & _ & Ke1) _].
  destruct (blink_quiet (1 # 2) (set_queue q w)) as [_ Ha1].
  fold w1 in Ke1, Ha1. simpl in Ke1, Ha1.
  assert (blink (1 # 2) (set_queue q w) = (Ok tt, w1)) as E1.
  { rewrite (pair_eta (blink _ _)). f_equal.
    apply blink_returns. simpl. done. }
  assert ((if String.eqb kind "wav" then start_player play_wav data
           else if String.eqb kind "mp3" then start_player play_mp3 data
           else ret tt) w1 = (Ok tt, w2)) as E2.
  { unfold player_for in Hpl.
    destruct (String.eqb kind "wav"); [| destruct (String.eqb kind "mp3")];
      simplify_eq; unfold start_player; by rewrite Hh. }
  destruct (walk_opt_keeps visimes w2) as [(_ & _ & _ & Ke3) [Kh3 _]].
  fold m3 w3 in Ke3, Kh3. simpl in Ke3, Kh3.
  assert (m3 w2 = (Ok tt, w3)) as E3.
  { rewrite (pair_eta (m3 w2)). f_equal.
    apply walk_opt_returns. simpl. congruence. }
  assert (communicate w3 = (Ok tt, w4)) as E4.
  { unfold communicate. run_step. by rewrite Kh3. }
  assert (run_body w = blink (1 # 5) w4) as Hbody.
  { rewrite (run_body_cons _ _ _ _ _ Hq).
    rewrite (bind_ok _ _ _ _ _ E1), (bind_ok _ _ _ _ _ E2).
    fold m3. rewrite (bind_ok _ _ _ _ _ E3).
    by rewrite (bind_ok _ _ _ _ _ E4). }
  assert ((run_iteration w).2 = (blink (1 # 5) w4).2) as Hw.
  { unfold run_iteration, try_except, ret. rewrite Hbody.
    by destruct (blink (1 # 5) w4) as [[[] | e] w5]. }
  rewrite Hw.
  destruct (blink_quiet (1 # 5) w4) as [_ Ha5].
  destruct (blink_keeps (1 # 5) w4) as [_ [Kh5 _]].
  rewrite Ha5, Kh5. subst w4. simpl.
  rewrite audio_snoc_audio by done.
  pose proof (walk_opt_audio visimes w2) as Ha3. fold m3 w3 in Ha3.
  rewrite Ha3. subst w2. simpl.
  rewrite audio_snoc_audio, Ha1 by done. simpl.
  split; [by rewrite <- app_assoc | congruence].
Qed.

Lemma run_iteration_state w : (run_iteration w).2 = (run_body w).2.
Proof.
  unfold run_iteration, try_except, ret.
  by destruct (run_body w) as [[[] | e] w'].
Qed.

Lemma run_iteration_enclosure w j q :
  queue w = j :: q -> enclosure (run_iteration w).2 = enclosure w.
Proof.
  intros Hq. rewrite run_iteration_state.
  by destruct (run_body_keeps w j q Hq) as (_ & _ & _ & He).
Qed.

(** X9: jobs are played strictly one after the other, in the order they
    were queued: for a queue of jobs whose players start, the loop makes
    the audio device start the first job's player and wait for it, then
    the second one's, and so on, and leaves the queue empty. *)
Theorem run_plays_in_order (q : list Job) (hs : list Popen) (w : World) :
  queue w = q ->
  terminated w = false ->
  enclosure w <> Unset ->
  Forall2 (fun (job : Job) h =>
             exists pl, player_for job.1.1 = Some pl /\ pl job.1.2 = Ok h)
          q hs ->
  (run_loop (length q) w).1 = Ok false
  /\ queue (run_loop (length q) w).2 = []
  /\ audio (trace (run_loop (length q) w).2)
     = audio (trace w) ++ serial_audio hs.
Proof.
  intros Hq Ht He Hall. revert w Hq Ht He.
  induction Hall as [| [[kind data] visimes] h q hs (pl & Hpl & Hh) Hall IH];
    intros w Hq Ht He.
  - simpl. run_step. rewrite Ht. simpl. by rewrite app_nil_r.
  - simpl length. rewrite (run_loop_next _ _ Ht).
    destruct (run_iteration_continues w _ _ Hq) as (_ & Hq' & Ht').
    pose proof (run_iteration_enclosure w _ _ Hq) as He'.
    destruct (run_iteration_plays w _ _ _ _ _ _ Hq He Hpl Hh) as [Ha _].
    destruct (IH (run_iteration w).2) as (H1 & H2 & H3);
      [done | congruence | congruence |].
    split; [exact H1 | split; [exact H2 |]].
    rewrite H3, Ha. simpl. by rewrite <- app_assoc.
Qed.

(** X10: with nothing queued the loop does nothing but wait: each turn
    spends the two seconds of the timeout and leaves everything else as
    it was. *)
Theorem run_loop_idle (n : nat) (w : World) :
  queue w = [] ->
  terminated w = false ->
  (run_loop n w).1 = Ok false
  /\ queue (run_loop n w).2 = []
  /\ trace (run_loop n w).2 = trace w
  /\ fs (run_loop n w).2 = fs w
  /\ handle (run_loop n w).2 = handle w
  /\ (clock (run_loop n w).2 == clock w + 2 * inject_Z (Z.of_nat n))%Q.
Proof.
  revert w. induction n as [| n IH]; intros w Hq Ht.
  - simpl. run_step. rewrite Ht. simpl. repeat split; try done.
    change (inject_Z (Z.of_nat 0)) with 0%Q. lra.
  - rewrite (run_loop_next _ _ Ht).
    assert (run_iteration w = (Ok tt, set_clock (clock w + 2)%Q w)) as E.
    { unfold run_iteration, try_except, run_body, queue_get. run_step.
      by rewrite Hq. }
    rewrite E. simpl.
    destruct (IH (set_clock (clock w + 2)%Q w)) as (H1 & H2 & H3 & H4 & H5 & H6);
      [done | done |].
    repeat split; try done.
    rewrite H6. simpl clock. rewrite Nat2Z.inj_succ. unfold Z.succ.
    rewrite inject_Z_plus. change (inject_Z 1) with 1%Q.
    generalize (inject_Z (Z.of_nat n)). intros x. lra.
Qed.

(** X11: until [TTS.init] has given the thread its enclosure, every job
    is taken off the queue and dropped: nothing is played, nothing is
    sent, and the rest of the state is untouched. *)
Theorem run_before_init (w : World) (j : Job) (q : list Job) :
  queue w = j :: q ->
  enclosure w = Unset ->
  run_iteration w = (Ok tt, set_queue q w).
Proof.
  destruct j as [[kind data] visimes]. intros Hq He.
  unfold run_iteration, try_except.
  rewrite (run_body_cons _ _ _ _ _ Hq).
  unfold blink, if_enclosure. run_step. by rewrite He.
Qed.

(** X12: when the player cannot be started the job is given up at once:
    its visemes are not shown, no signal is polled, the local [p] keeps
    its value, and the loop goes on with the rest of the queue. *)
Theorem run_player_error w kind data visimes q pl e :
  queue w = (kind, data, visimes) :: q ->
  enclosure w <> Unset ->
  player_for kind = Some pl ->
  pl data = Raise e ->
  (run_iteration w).1 = Ok tt
  /\ queue (run_iteration w).2 = q
  /\ handle (run_iteration w).2 = handle w
  /\ audio (trace (run_iteration w).2) = audio (trace w)
  /\ emissions (trace (run_iteration w).2) = emissions (trace w)
  /\ polls (run_iteration w).2 = polls w.
Proof.
  intros Hq He Hpl Hraise.
  set (w1 := (blink (1 # 2) (set_queue q w)).2).
  assert (blink (1 # 2) (set_queue q w) = (Ok tt, w1)) as E1.
  { rewrite (pair_eta (blink _ _)). f_equal. by apply blink_returns. }
  assert (run_body w = (Raise e, w1)) as Hbody.
  { rewrite (run_body_cons _ _ _ _ _ Hq), (bind_ok _ _ _ _ _ E1).
    unfold bind, player_for, start_player in *.
    destruct (String.eqb kind "wav"); [| destruct (String.eqb kind "mp3")];
      simplify_eq; by rewrite Hraise. }
  rewrite run_iteration_ok, run_iteration_state, Hbody. simpl.
  destruct (blink_keeps (1 # 2) (set_queue q w)) as [(_ & Kq & _) [Kh _]].
  destruct (blink_quiet (1 # 2) (set_queue q w)) as [(Kp & Ke & _) Ka].
  fold w1 in Kq, Kh, Kp, Ke, Ka. simpl in *. done.
Qed.

(** X13: a job without visemes (none, or an empty list) never looks at
    the interrupt signals: neither is polled, nothing is sent to the
    mouth, and the thread does not sleep. *)
Theorem run_without_visemes w kind data visimes q :
  queue w = (kind, data, visimes) :: q ->
  has_visimes visimes = false ->
  polls (run_iteration w).2 = polls w
  /\ emissions (trace (run_iteration w).2) = emissions (trace w)
  /\ clock (run_iteration w).2 = clock w.
Proof.
  intros Hq Hv.
  assert (quiet (set_queue q w) (run_body w).2) as H.
  { rewrite (run_body_cons _ _ _ _ _ Hq), Hv.
    apply (bind_rel quiet); [apply quiet_trans | apply blink_quiet |].
    intros _ w1. apply (bind_rel quiet); [apply quiet_trans | |].
    { destruct (String.eqb kind "wav"); [apply start_player_quiet |].
      destruct (String.eqb kind "mp3"); [apply start_player_quiet |].
      apply quiet_refl. }
    intros _ w2. apply (bind_rel quiet); [apply quiet_trans | apply quiet_refl |].
    intros _ w3.
    apply (bind_rel quiet); [apply quiet_trans | apply communicate_quiet |].
    intros _ w4. apply blink_quiet. }
  rewrite run_iteration_state. exact H.
Qed.

(** X14: after [stop], however it ended, the loop is left at its next
    test: no further job is taken, whatever is still queued stays
    queued. *)
Theorem stop_then_loop_exits (fuel : nat) (w : World) :
  run_loop fuel (stop w).2 = (Ok true, (stop w).2)
  /\ queue (stop w).2 = queue w.
Proof.
  assert (terminated (stop w).2 = true /\ queue (stop w).2 = queue w)
    as [Ht Hq].
  { unfold stop. run_step.
    destruct (queue w) eqn:E; simpl; rewrite ?E; done. }
  split; [by apply run_loop_exits | exact Hq].
Qed.

(** X15: whatever the signals do, the visemes [show_visimes] sends are
    the codes of the job in their order, up to some point: none is
    skipped, repeated or sent out of turn. *)
Theorem show_visimes_sends_prefix (pairs : list Viseme) (w : World) :
  enclosure w = IsAPI ->
  exists es,
    emissions (trace (show_visimes pairs w).2) = emissions (trace w) ++ es
    /\ map fst es `prefix_of` map fst pairs.
Proof.
  rewrite show_visimes_walk. generalize (clock w) at 1. intros start.
  revert w. induction pairs as [| [code duration] rest IH]; intros w He.
  - exists []. simpl. by rewrite app_nil_r.
  - rewrite walk_cons.
    destruct (check_for_signal "stoppingTTS" _ _ _).
    { exists []. simpl. rewrite app_nil_r. split; [done | apply prefix_nil]. }
    destruct (check_for_signal "buttonPress" _ _ _).
    { exists []. simpl. rewrite app_nil_r. split; [done | apply prefix_nil]. }
    rewrite He.
    destruct (after_event_elapsed start code duration w (clock w - start) He)
      as (_ & Hem & He'); [reflexivity |].
    destruct (IH _ He') as (es & Hes & Hpre).
    exists ((code, clock w) :: es). split.
    + rewrite Hes, Hem, <- app_assoc. reflexivity.
    + simpl. by apply prefix_cons.
Qed.

Lemma clear_cache_dirs w : dirs (fs (clear_cache w).2) = dirs (fs w).
Proof.
  unfold clear_cache. run_step.
  destruct (fs_exists cache_dir (fs w)); simpl; [| done].
  by destruct (fs_isdir cache_dir (fs w)).
Qed.

(** X17: the output path a new instance is given, [/tmp/tts.wav], passes
    the validator's path check exactly when [/tmp] is a directory, and
    the check leaves the state as it is. *)
Theorem default_filename_check (l v : option string) (w : World) :
  (fs_isfile cache_dir (fs w) = true -> fs_isdir cache_dir (fs w) = true) ->
  exists self w1,
    TTS_init l v w = (Ok self, w1)
    /\ ((validate_filename self w1).1 = Ok tt
        <-> fs_isdir "/tmp" (fs w) = true)
    /\ (validate_filename self w1).2 = w1.
Proof.
  intros H.
  set (w0 := set_enclosure Unset (set_terminated false (set_queue [] w))).
  destruct (clear_cache_ok w0 H) as [w1 E].
  pose proof (clear_cache_dirs w0) as Hd. rewrite E in Hd. simpl in Hd.
  exists (mkTTS (py_or l "en-us") v (Some "/tmp/tts.wav"%string) IsNone), w1.
  split; [| split].
  - unfold TTS_init. run_step. fold w0. by rewrite E.
  - unfold validate_filename, fs_exists. run_step.
    change (wav_format (Some "/tmp/tts.wav"%string)) with true.
    change (Py.dirname "/tmp/tts.wav") with "/tmp"%string. simpl.
    assert (fs_isdir "/tmp" (fs w1) = fs_isdir "/tmp" (fs w)) as ->
      by (unfold fs_isdir; by rewrite Hd).
    destruct (fs_isdir "/tmp" (fs w)); simpl.
    + by rewrite orb_true_r.
    + rewrite andb_false_r. simpl. split; done.
  - unfold validate_filename, fs_exists. run_step.
    change (wav_format (Some "/tmp/tts.wav"%string)) with true. simpl.
    by destruct (_ && _).
Qed.

(** *** The factory *)

Lemma section_of_state config module w :
  (section_of config module w).2 = w.
Proof.
  unfold section_of. destruct module as [name |]; [| done].
  by destruct (config !! name) as [[] |].
Qed.

(** X18: [create] hands back an instance only after its validator has
    run and passed: when it returns, the instance came from one of the
    six registered classes, then went through [validate], and the state
    is the one validation left. *)
Theorem create_returns_validated config w tts :
  (create config w).1 = Ok tts ->
  exists name lang voice url w1,
    name ∈ CLASSES
    /\ construct name lang voice url w = (Ok tts, w1)
    /\ (is_remote name = false <-> url = None)
    /\ validator_validate tts w1 = (Ok tt, (create config w).2).
Proof.
  unfold create.
  destruct (default (CfgStr "mimic") (config !! "module"%string))
    as [name | d |] eqn:Em; [| done |].
  2: { unfold section_of. run_step. done. }
  unfold section_of. run_step.
  destruct (config !! name) as [[s' | d |] |]; simpl; try done.
  destruct (bool_decide (name ∈ CLASSES)) eqn:Ec; simpl; [| intros [=]].
  apply bool_decide_eq_true in Ec.
  destruct (is_remote name) eqn:Er; simpl.
  - destruct (construct name _ _ (Some _) w) as [[t | e] w1] eqn:Ek;
      simpl; [| intros [=]].
    destruct (validator_validate t w1) as [[[] | e] w2] eqn:Ev; simpl; [| intros [=]].
    intros [= ->]. eexists _, _, _, _, _.
    split; [exact Ec | split; [exact Ek | split; [| exact Ev]]].
    rewrite Er. split; intros [=].
  - destruct (construct name _ _ None w) as [[t | e] w1] eqn:Ek;
      simpl; [| intros [=]].
    destruct (validator_validate t w1) as [[[] | e] w2] eqn:Ev; simpl; [| intros [=]].
    intros [= ->]. eexists _, _, _, _, _.
    split; [exact Ec | split; [exact Ek | split; [| exact Ev]]].
    split; done.
Qed.

(** X19: a selector that is not one of the six registered engines, or
    one that has no section of its own in the configuration, makes
    [create] raise before anything is constructed: the state is
    untouched. *)
Theorem create_rejects_unknown config name w :
  config !! "module"%string = Some (CfgStr name) ->
  name ∉ CLASSES \/ (forall d, config !! name <> Some (CfgDict d)) ->
  (exists e, (create config w).1 = Raise e)
  /\ (create config w).2 = w.
Proof.
  intros Hm Hbad. unfold create. rewrite Hm. simpl.
  unfold section_of. run_step.
  destruct (config !! name) as [[s' | d |] |] eqn:Es; simpl;
    try (split; [eexists; reflexivity | reflexivity]).
  destruct Hbad as [Hbad | Hbad]; [| by destruct (Hbad d)].
  rewrite bool_decide_eq_false_2 by done.
  split; [eexists; reflexivity | reflexivity].
Qed.

(** X20: a configuration that names no engine selects [mimic]: [create]
    behaves as if ["module": "mimic"] had been written. *)
Theorem create_defaults_to_mimic config :
  config !! "module"%string = None ->
  create config = create (<["module"%string := CfgStr "mimic"]> config).
Proof.
  intros Hm. unfold create.
  rewrite Hm, lookup_insert_eq. simpl.
  unfold section_of.
  by rewrite lookup_insert_ne.
Qed.

(** *** From the request to the loudspeaker *)

Lemma execute_miss_frame (s : string) (w : World) :
  fs_exists (wav_path s) (fs w) = false ->
  enclosure (execute s w).2 = enclosure w
  /\ audio (trace (execute s w).2) = audio (trace w).
Proof.
  intros Hmiss.
  unfold execute, call_get_tts, save_phonemes, call_curate_cache,
    write_file, call_visime, queue_put.
  run_step. rewrite Hmiss.
  repeat (case_match; run_step; simplify_eq);
    simpl; rewrite ?audio_snoc by done; done.
Qed.

(** X21: what is spoken is what the backend returned: after an
    [execute] that had to synthesize, the next turn of the loop starts
    the player of the backend's type on the returned artifact and waits
    for it. *)
Theorem execute_then_run_plays (s : string) (w : World) wf ph f v pl h :
  queue w = [] ->
  enclosure w <> Unset ->
  fs_exists (wav_path s) (fs w) = false ->
  get_tts s (wav_path s) (fs w) = (Ok (wf, ph), f) ->
  (Py.truthy_opt ph = true ->
   exists f', curate_cache cache_dir f = (Ok tt, f')) ->
  visime ph = Ok v ->
  player_for tts_type = Some pl ->
  pl wf = Ok h ->
  (execute s w).1 = Ok tt
  /\ queue (run_iteration (execute s w).2).2 = []
  /\ audio (trace (run_iteration (execute s w).2).2)
     = audio (trace w) ++ [EvPlay h; EvCommunicate h].
Proof.
  intros Hq He Hmiss Hsynth Hcur Hv Hpl Hh.
  assert ((execute s w).1 = Ok tt
          /\ queue (execute s w).2 = [(tts_type, wf, v)]) as [Hok Hq'].
  { unfold execute, call_get_tts, save_phonemes, call_curate_cache,
      write_file, call_visime, queue_put, fs_write.
    run_step. rewrite Hmiss, Hsynth. simpl.
    destruct (Py.truthy_opt ph); simpl.
    - destruct Hcur as [f' Hf']; [done |]. rewrite Hf'. simpl.
      destruct (bool_decide (_ ∈ unwritable f')); simpl;
        rewrite Hv; simpl; by rewrite Hq.
    - rewrite Hv. simpl. by rewrite Hq. }
  destruct (execute_miss_frame s w Hmiss) as [He' Ha'].
  destruct (run_iteration_continues _ _ _ Hq') as (_ & Hq'' & _).
  destruct (run_iteration_plays (execute s w).2 _ _ _ _ _ _ Hq'
              ltac:(congruence) Hpl Hh) as [Ha _].
  split; [exact Hok | split; [exact Hq'' |]].
  by rewrite Ha, Ha'.
Qed.

(** X22: on a cache hit the visemes come from the cached payload: the
    job carries the cached artifact's path and what [visime] makes of
    the stored text, stripped of surrounding white space. *)
Theorem execute_hit_uses_payload (s : string) (w : World) c v :
  fs_exists (wav_path s) (fs w) = true ->
  files (fs w) !! pho_path (md5_hex s) = Some c ->
  pho_path (md5_hex s) ∉ unreadable (fs w) ->
  visime (Some (Py.strip c)) = Ok v ->
  (execute s w).1 = Ok tt
  /\ queue (execute s w).2 = queue w ++ [(tts_type, wav_path s, v)].
Proof.
  intros Hhit Hc Hr Hv.
  unfold execute, load_phonemes, read_file, fs_read, fs_exists, fs_isfile,
    call_visime, queue_put in *.
  run_step. rewrite Hhit. simpl.
  rewrite Hc.
  rewrite (bool_decide_eq_true_2 (is_Some (Some c))) by eauto. simpl.
  rewrite (bool_decide_eq_false_2 _ Hr). simpl.
  rewrite Hc. simpl. by rewrite Hv.
Qed.

(** *** Interruption and what follows *)




End Module_tts.

(** ** The theorems at concrete inputs *)

Local Open Scope list_scope.

Lemma TTS_init_lang_witness :
  (fs_isfile Demo.cache (fs (Demo.world Unset Demo.disk [])) = true ->
   fs_isdir Demo.cache (fs (Demo.world Unset Demo.disk [])) = true)
  /\ exists self w',
      TTS_init Demo.cache (Some "") None (Demo.world Unset Demo.disk [])
      = (Ok self, w')
      /\ (Py.truthy_opt (Some "") = false -> lang self = "en-us"%string)
      /\ (forall s, Some ""%string = Some s -> s <> ""%string -> lang self = s).
Proof.
  assert (fs_isfile Demo.cache (fs (Demo.world Unset Demo.disk [])) = true ->
          fs_isdir Demo.cache (fs (Demo.world Unset Demo.disk [])) = true) as H.
  { intros _. vm_compute. reflexivity. }
  split; [exact H |].
  exact (TTS_init_lang Demo.cache (Some ""%string) None
           (Demo.world Unset Demo.disk []) H).
Defined.

Lemma execute_hit_no_write_witness :
  fs (execute Demo.digest Demo.cache Demo.curate "wav" Demo.local_tts
        Demo.no_visime "hello" (Demo.world IsAPI Demo.disk_hit [])).2
  = Demo.disk_hit
  /\ exists logs,
      trace (execute Demo.digest Demo.cache Demo.curate "wav" Demo.local_tts
               Demo.no_visime "hello" (Demo.world IsAPI Demo.disk_hit [])).2
      = [] ++ logs
      /\ forallb is_log logs = true.
Proof.
  apply (execute_hit_no_write Demo.digest Demo.cache Demo.curate "wav"
           Demo.local_tts Demo.no_visime "hello"
           (Demo.world IsAPI Demo.disk_hit [])).
  vm_compute. reflexivity.
Defined.

Lemma execute_synthesis_error_witness :
  let w := Demo.world IsAPI Demo.disk [] in
  let f := (Demo.partial_tts "hello"
              (wav_path Demo.digest Demo.cache "wav" "hello") Demo.disk).2 in
  (execute Demo.digest Demo.cache Demo.curate "wav" Demo.partial_tts
     Demo.no_visime "hello" w).1
  = Raise (External "synthesis failed")
  /\ queue (execute Demo.digest Demo.cache Demo.curate "wav" Demo.partial_tts
             Demo.no_visime "hello" w).2 = queue w
  /\ fs (execute Demo.digest Demo.cache Demo.curate "wav" Demo.partial_tts
          Demo.no_visime "hello" w).2 = f
  /\ trace (execute Demo.digest Demo.cache Demo.curate "wav" Demo.partial_tts
             Demo.no_visime "hello" w).2
     = trace w
       ++ [EvSynth "hello" (wav_path Demo.digest Demo.cache "wav" "hello")]
  /\ (fs (execute Demo.digest Demo.cache Demo.curate "wav" Demo.partial_tts
            Demo.no_visime "hello" w).2 = fs w <-> f = fs w).
Proof.
  cbv zeta.
  apply (execute_synthesis_error Demo.digest Demo.cache Demo.curate "wav"
           Demo.partial_tts Demo.no_visime "hello"
           (Demo.world IsAPI Demo.disk [])
           (External "synthesis failed")).
  - vm_compute. reflexivity.
  - reflexivity.
Defined.

Lemma execute_twice_synth_once_witness :
  synth_calls
    (trace (execute Demo.digest Demo.cache Demo.curate "wav" Demo.local_tts
              Demo.no_visime "hello"
              (execute Demo.digest Demo.cache Demo.curate "wav" Demo.local_tts
                 Demo.no_visime "hello" (Demo.world IsAPI Demo.disk [])).2).2)
  = synth_calls
      (trace (execute Demo.digest Demo.cache Demo.curate "wav" Demo.local_tts
                Demo.no_visime "hello" (Demo.world IsAPI Demo.disk [])).2)
  /\ (synth_calls
       (trace (execute Demo.digest Demo.cache Demo.curate "wav" Demo.local_tts
                 Demo.no_visime "hello"
                 (execute Demo.digest Demo.cache Demo.curate "wav"
                    Demo.local_tts Demo.no_visime "hello"
                    (Demo.world IsAPI Demo.disk [])).2).2)
     <= S (synth_calls (trace (Demo.world IsAPI Demo.disk []))))%nat.
Proof.
  apply (execute_twice_synth_once Demo.digest Demo.cache Demo.curate "wav"
           Demo.local_tts Demo.no_visime "hello"
           (Demo.world IsAPI Demo.disk [])).
  vm_compute. reflexivity.
Defined.

Lemma save_then_load_strips_witness :
  exists w1 w2,
    save_phonemes Demo.cache Demo.curate "k" " pau:0.2 "
      (Demo.world IsAPI Demo.disk []) = (Ok tt, w1)
    /\ load_phonemes Demo.cache "k" w1
       = (Ok (Some (Py.strip " pau:0.2 ")), w2)
    /\ fs w2 = fs w1.
Proof.
  apply (save_then_load_strips Demo.cache Demo.curate "k" " pau:0.2 "
           (Demo.world IsAPI Demo.disk []) Demo.disk).
  - reflexivity.
  - apply not_elem_of_empty.
  - apply not_elem_of_empty.
Defined.


(** With [stoppingTTS] set, a job with visemes followed by another job:
    both are played to the end, in order, and no viseme is sent. *)
Example interrupted_job_then_next :
  let w := Demo.world IsAPI Demo.disk
             [("wav"%string, "a.wav"%string, Some [("A"%string, 1 # 2)]);
              ("mp3"%string, "b.mp3"%string, None)] in
  (run_loop Demo.stopping Demo.dice Demo.wav_player Demo.mp3_player 2 w).1
  = Ok false
  /\ trace (run_loop Demo.stopping Demo.dice Demo.wav_player
              Demo.mp3_player 2 w).2
     = [EvPlay (mkPopen "wav" "a.wav"); EvCommunicate (mkPopen "wav" "a.wav");
        EvPlay (mkPopen "mp3" "b.mp3"); EvCommunicate (mkPopen "mp3" "b.mp3")]
  /\ queue (run_loop Demo.stopping Demo.dice Demo.wav_player
              Demo.mp3_player 2 w).2 = [].
Proof. vm_compute. done. Qed.

Lemma run_unknown_kind_witness :
  let w := Demo.world IsAPI Demo.disk
             [("ogg"%string, "b.ogg"%string, Some [("A"%string, 1 # 2)])] in
  (run_iteration Demo.never Demo.dice Demo.wav_player Demo.mp3_player w).1
  = Ok tt
  /\ queue (run_iteration Demo.never Demo.dice Demo.wav_player
             Demo.mp3_player w).2 = []
  /\ terminated (run_iteration Demo.never Demo.dice Demo.wav_player
                  Demo.mp3_player w).2 = terminated w
  /\ plays (trace (run_iteration Demo.never Demo.dice Demo.wav_player
                     Demo.mp3_player w).2) = plays (trace w)
  /\ (enclosure w = IsAPI -> handle w = None ->
      let w1 := (blink Demo.dice (1 # 2) (set_queue [] w)).2 in
      let w2 := if has_visimes (Some [("A"%string, 1 # 2)])
                then (show_visimes Demo.never
                        (default [] (Some [("A"%string, 1 # 2)])) w1).2
                else w1 in
      run_body Demo.never Demo.dice Demo.wav_player Demo.mp3_player w
      = (Raise (UnboundLocalError "p"), w2)).
Proof.
  intros w.
  apply (run_unknown_kind Demo.never Demo.dice Demo.wav_player
           Demo.mp3_player w "ogg" "b.ogg" (Some [("A"%string, 1 # 2)]) []).
  - reflexivity.
  - discriminate.
  - discriminate.
Defined.

Lemma show_visimes_schedule_witness :
  let pairs : list Viseme := [("A"%string, 1 # 2); ("B"%string, 3 # 10)] in
  let w := Demo.world IsAPI Demo.disk [] in
  (show_visimes Demo.never pairs w).1 = Ok tt
  /\ (exists es,
        emissions (trace (show_visimes Demo.never pairs w).2)
        = emissions (trace w) ++ es
        /\ Forall2 (fun e x => e.1 = x.1 /\ (e.2 - clock w == x.2)%Q)
                   es (schedule 0 pairs))
  /\ (exists evs,
        trace (show_visimes Demo.never pairs w).2 = trace w ++ evs
        /\ length (steps (clock w) evs) = length evs
        /\ Forall2 same_step (steps (clock w) evs) (timeline 0 pairs))
  /\ (clock (show_visimes Demo.never pairs w).2 - clock w
      == fold_left wait_until (map snd pairs) 0)%Q.
Proof.
  cbv zeta.
  apply (show_visimes_schedule Demo.never
           [("A"%string, 1 # 2); ("B"%string, 3 # 10)]
           (Demo.world IsAPI Demo.disk [])).
  - intros name life n t. reflexivity.
  - reflexivity.
Defined.

Lemma stop_raises_with_jobs_witness :
  (stop (Demo.world IsAPI Demo.disk [("wav"%string, "a.wav"%string, None)])).1
  = Raise (NameError "queue")
  /\ terminated
       (stop (Demo.world IsAPI Demo.disk
                [("wav"%string, "a.wav"%string, None)])).2 = true
  /\ queue (stop (Demo.world IsAPI Demo.disk
                    [("wav"%string, "a.wav"%string, None)])).2
     = [("wav"%string, "a.wav"%string, None)].
Proof.
  apply (stop_raises_with_jobs ("wav"%string, "a.wav"%string, None) []
           (Demo.world IsAPI Demo.disk
              [("wav"%string, "a.wav"%string, None)])).
  reflexivity.
Defined.

(** ** Where the code departs from the specification's words *)

(** C1: for the events [(A, 0.5), (B, 0.3)] the code sends A when the
    walk begins and B half a second later, not at 0.5 s and 0.8 s. *)
Lemma viseme_times_counterexample :
  emissions
    (trace (show_visimes Demo.never
              [("A"%string, 1 # 2); ("B"%string, 3 # 10)]
              (Demo.world IsAPI Demo.disk [])).2)
  = [("A"%string, 0%Q); ("B"%string, 1 # 2)]
  /\ ~ (exists tA tB,
         emissions
           (trace (show_visimes Demo.never
                     [("A"%string, 1 # 2); ("B"%string, 3 # 10)]
                     (Demo.world IsAPI Demo.disk [])).2)
         = [("A"%string, tA); ("B"%string, tB)]
         /\ (2 # 5 <= tA)%Q /\ (tA <= 3 # 5)%Q
         /\ (7 # 10 <= tB)%Q /\ (tB <= 9 # 10)%Q).
Proof.
  split; [vm_compute; reflexivity |].
  intros (tA & tB & H & HA & _).
  vm_compute in H. injection H as <- _.
  revert HA. unfold Qle. simpl. lia.
Qed.

(** C2: a payload that begins with a blank comes back without it. *)
Lemma round_trip_counterexample :
  (save_phonemes Demo.cache Demo.curate "k" " x"
     (Demo.world IsAPI Demo.disk [])).1 = Ok tt
  /\ (load_phonemes Demo.cache "k"
       (save_phonemes Demo.cache Demo.curate "k" " x"
          (Demo.world IsAPI Demo.disk [])).2).1 = Ok (Some "x"%string)
  /\ Some "x"%string <> Some " x"%string.
Proof. split; [| split]; [vm_compute; reflexivity .. | discriminate]. Qed.

(** C4: with a backend that returns an artifact of its own and writes
    nothing at the path it was given, both calls synthesize. *)
Lemma execute_twice_counterexample :
  let speak := execute Demo.digest Demo.cache Demo.curate "wav"
                 Demo.remote_tts Demo.no_visime "hello" in
  let w := Demo.world IsAPI Demo.disk [] in
  (speak w).1 = Ok tt
  /\ (speak (speak w).2).1 = Ok tt
  /\ synth_calls (trace (speak (speak w).2).2) = 2%nat.
Proof. vm_compute. done. Qed.

(** C5: a backend that has written part of the artifact when it raises
    leaves the cache changed: the path that missed now exists, and the
    next call takes it for a hit and queues the partial file without
    synthesizing again. *)
Lemma synthesis_error_counterexample :
  let speak := execute Demo.digest Demo.cache Demo.curate "wav"
                 Demo.partial_tts Demo.no_visime "hello" in
  let path := wav_path Demo.digest Demo.cache "wav" "hello" in
  let w := Demo.world IsAPI Demo.disk [] in
  fs_exists path (fs w) = false
  /\ (speak w).1 = Raise (External "synthesis failed")
  /\ fs_exists path (fs (speak w).2) = true
  /\ fs (speak w).2 <> fs w
  /\ (speak (speak w).2).1 = Ok tt
  /\ queue (speak (speak w).2).2 = [("wav"%string, path, None)]
  /\ synth_calls (trace (speak (speak w).2).2) = 1%nat.
Proof.
  cbv zeta. repeat split; try (vm_compute; reflexivity).
  intros H.
  assert (fs_exists (wav_path Demo.digest Demo.cache "wav" "hello")
            (fs (execute Demo.digest Demo.cache Demo.curate "wav"
                   Demo.partial_tts Demo.no_visime "hello"
                   (Demo.world IsAPI Demo.disk [])).2) = true) as H1
    by (vm_compute; reflexivity).
  rewrite H in H1. vm_compute in H1. discriminate H1.
Qed.

(** C6: for a backend whose artifacts are mp3 files an output path ending
    in [.mp3] is rejected, and one ending in [.wav] accepted. *)
Lemma validate_extension_counterexample :
  let w := Demo.world IsAPI Demo.disk [] in
  let check name :=
    (validate true "GoogleTTS" Demo.passes Demo.passes
       (mkTTS "en-us" None (Some name) IsNone) w).1 in
  spec_output_path_ok "mp3" (Some "/tmp/tts.mp3"%string) Demo.disk = true
  /\ check "/tmp/tts.mp3"%string
     = Raise (AttributeError "file: /tmp/tts.mp3 must be in .wav format!")
  /\ spec_output_path_ok "mp3" (Some "/tmp/tts.wav"%string) Demo.disk = false
  /\ check "/tmp/tts.wav"%string = Ok tt.
Proof. vm_compute. done. Qed.

(** C9: after a wav job has bound [p], a job of another kind waits on
    that stale handle and ends normally: nothing is raised. *)
Lemma stale_handle_counterexample :
  let w := Demo.world IsAPI Demo.disk
             [("wav"%string, "a.wav"%string, None);
              ("ogg"%string, "b.ogg"%string, Some [("A"%string, 1 # 2)])] in
  let w1 := (run_iteration Demo.never Demo.dice Demo.wav_player
               Demo.mp3_player w).2 in
  queue w1 = [("ogg"%string, "b.ogg"%string, Some [("A"%string, 1 # 2)])]
  /\ handle w1 = Some (mkPopen "wav" "a.wav")
  /\ (run_body Demo.never Demo.dice Demo.wav_player Demo.mp3_player w1).1
     = Ok tt
  /\ trace (run_body Demo.never Demo.dice Demo.wav_player Demo.mp3_player
             w1).2
     = [EvPlay (mkPopen "wav" "a.wav");
        EvCommunicate (mkPopen "wav" "a.wav");
        EvViseme "A" 0; EvSleep (1 # 2);
        EvCommunicate (mkPopen "wav" "a.wav")].
Proof. vm_compute. done. Qed.

(** ** Further properties at concrete inputs *)

Lemma clear_cache_removes_entries_witness :
  (clear_cache Demo.cache (Demo.world IsAPI Demo.disk_cached [])).1 = Ok tt
  /\ fs_isfile
       (Py.path_join Demo.cache "5d41402abc4b2a76b9719d911017c592wav")
       (fs (clear_cache Demo.cache (Demo.world IsAPI Demo.disk_cached [])).2)
     = false.
Proof.
  apply (clear_cache_removes_entries Demo.cache
           (Demo.world IsAPI Demo.disk_cached [])
           "5d41402abc4b2a76b9719d911017c592wav").
  - vm_compute. reflexivity.
  - vm_compute. reflexivity.
Defined.

Lemma fresh_instance_synthesizes_witness :
  exists self w1,
    TTS_init Demo.cache None None (Demo.world IsAPI Demo.disk_cached [])
    = (Ok self, w1)
    /\ queue w1 = []
    /\ fs_exists (wav_path Demo.digest Demo.cache "wav" "hello") (fs w1)
       = false
    /\ exists rest,
        trace (execute Demo.digest Demo.cache Demo.curate "wav"
                 Demo.local_tts Demo.no_visime "hello" w1).2
        = trace w1
          ++ EvSynth "hello" (wav_path Demo.digest Demo.cache "wav" "hello")
             :: rest.
Proof.
  apply (fresh_instance_synthesizes Demo.digest Demo.cache Demo.curate "wav"
           Demo.local_tts Demo.no_visime None None
           (Demo.world IsAPI Demo.disk_cached []) "hello").
  - vm_compute. reflexivity.
  - vm_compute. reflexivity.
  - vm_compute. reflexivity.
Defined.

Lemma execute_miss_submits_witness :
  (execute Demo.digest Demo.cache Demo.curate "wav" Demo.remote_tts
     Demo.no_visime "hello" (Demo.world IsAPI Demo.disk [])).1 = Ok tt
  /\ queue (execute Demo.digest Demo.cache Demo.curate "wav" Demo.remote_tts
              Demo.no_visime "hello" (Demo.world IsAPI Demo.disk [])).2
     = [] ++ [("wav"%string, "/tmp/remote.wav"%string, None)].
Proof.
  apply (execute_miss_submits Demo.digest Demo.cache Demo.curate "wav"
           Demo.remote_tts Demo.no_visime "hello"
           (Demo.world IsAPI Demo.disk []) "/tmp/remote.wav" None Demo.disk
           None).
  - vm_compute. reflexivity.
  - reflexivity.
  - intros H. discriminate H.
  - reflexivity.
Defined.

Lemma execute_curation_error_witness :
  (execute Demo.digest Demo.cache Demo.failing_curate "wav" Demo.local_tts
     Demo.no_visime "hello" (Demo.world IsAPI Demo.disk [])).1
  = Raise (External "cannot stat the cache")
  /\ queue (execute Demo.digest Demo.cache Demo.failing_curate "wav"
              Demo.local_tts Demo.no_visime "hello"
              (Demo.world IsAPI Demo.disk [])).2 = []
  /\ fs (execute Demo.digest Demo.cache Demo.failing_curate "wav"
           Demo.local_tts Demo.no_visime "hello"
           (Demo.world IsAPI Demo.disk [])).2
     = (Demo.local_tts "hello"
          (wav_path Demo.digest Demo.cache "wav" "hello") Demo.disk).2.
Proof.
  apply (execute_curation_error Demo.digest Demo.cache Demo.failing_curate
           "wav" Demo.local_tts Demo.no_visime "hello"
           (Demo.world IsAPI Demo.disk [])
           (wav_path Demo.digest Demo.cache "wav" "hello")
           (Some "pau:0.2 hh:0.3"%string)
           (Demo.local_tts "hello"
              (wav_path Demo.digest Demo.cache "wav" "hello") Demo.disk).2
           (External "cannot stat the cache")
           (Demo.local_tts "hello"
              (wav_path Demo.digest Demo.cache "wav" "hello") Demo.disk).2).
  - vm_compute. reflexivity.
  - reflexivity.
  - reflexivity.
  - reflexivity.
Defined.

Lemma execute_no_payload_no_write_witness :
  fs (execute Demo.digest Demo.cache Demo.failing_curate "wav" Demo.mute_tts
        Demo.no_visime "hello" (Demo.world IsAPI Demo.disk [])).2
  = (Demo.mute_tts "hello"
       (wav_path Demo.digest Demo.cache "wav" "hello") Demo.disk).2
  /\ trace (execute Demo.digest Demo.cache Demo.failing_curate "wav"
              Demo.mute_tts Demo.no_visime "hello"
              (Demo.world IsAPI Demo.disk [])).2
     = [] ++ [EvSynth "hello" (wav_path Demo.digest Demo.cache "wav" "hello")].
Proof.
  apply (execute_no_payload_no_write Demo.digest Demo.cache
           Demo.failing_curate "wav" Demo.mute_tts Demo.no_visime "hello"
           (Demo.world IsAPI Demo.disk [])
           (wav_path Demo.digest Demo.cache "wav" "hello") None
           (Demo.mute_tts "hello"
              (wav_path Demo.digest Demo.cache "wav" "hello") Demo.disk).2).
  - vm_compute. reflexivity.
  - reflexivity.
  - reflexivity.
Defined.

Lemma execute_hit_uses_payload_witness :
  (execute Demo.digest Demo.cache Demo.curate "wav" Demo.local_tts
     Demo.no_visime "hello" (Demo.world IsAPI Demo.disk_cached [])).1 = Ok tt
  /\ queue (execute Demo.digest Demo.cache Demo.curate "wav" Demo.local_tts
              Demo.no_visime "hello"
              (Demo.world IsAPI Demo.disk_cached [])).2
     = [] ++ [("wav"%string,
               wav_path Demo.digest Demo.cache "wav" "hello", None)].
Proof.
  apply (execute_hit_uses_payload Demo.digest Demo.cache Demo.curate "wav"
           Demo.local_tts Demo.no_visime "hello"
           (Demo.world IsAPI Demo.disk_cached [])
           "pau:0.2 hh:0.3 
" None).
  - vm_compute. reflexivity.
  - vm_compute. reflexivity.
  - apply not_elem_of_empty.
  - reflexivity.
Defined.

Lemma run_plays_in_order_witness :
  let q : list Job :=
    [("wav"%string, "a.wav"%string, None);
     ("mp3"%string, "b.mp3"%string, Some [("A"%string, 1 # 2)])] in
  let w := Demo.world IsAPI Demo.disk q in
  (run_loop Demo.never Demo.dice Demo.wav_player Demo.mp3_player
     (length q) w).1 = Ok false
  /\ queue (run_loop Demo.never Demo.dice Demo.wav_player Demo.mp3_player
              (length q) w).2 = []
  /\ audio (trace (run_loop Demo.never Demo.dice Demo.wav_player
                     Demo.mp3_player (length q) w).2)
     = audio (trace w)
       ++ serial_audio [mkPopen "wav" "a.wav"; mkPopen "mp3" "b.mp3"].
Proof.
  cbv zeta.
  apply (run_plays_in_order Demo.never Demo.dice Demo.wav_player
           Demo.mp3_player).
  - reflexivity.
  - reflexivity.
  - discriminate.
  - repeat constructor.
    + exists Demo.wav_player. split; reflexivity.
    + exists Demo.mp3_player. split; reflexivity.
Defined.

Lemma run_loop_idle_witness :
  let w := Demo.world IsAPI Demo.disk [] in
  (run_loop Demo.never Demo.dice Demo.wav_player Demo.mp3_player 3 w).1
  = Ok false
  /\ queue (run_loop Demo.never Demo.dice Demo.wav_player Demo.mp3_player
              3 w).2 = []
  /\ trace (run_loop Demo.never Demo.dice Demo.wav_player Demo.mp3_player
              3 w).2 = trace w
  /\ fs (run_loop Demo.never Demo.dice Demo.wav_player Demo.mp3_player
           3 w).2 = fs w
  /\ handle (run_loop Demo.never Demo.dice Demo.wav_player Demo.mp3_player
               3 w).2 = handle w
  /\ (clock (run_loop Demo.never Demo.dice Demo.wav_player Demo.mp3_player
               3 w).2 == clock w + 2 * inject_Z (Z.of_nat 3))%Q.
Proof.
  cbv zeta.
  apply (run_loop_idle Demo.never Demo.dice Demo.wav_player Demo.mp3_player
           3 (Demo.world IsAPI Demo.disk [])).
  - reflexivity.
  - reflexivity.
Defined.

Lemma run_before_init_witness :
  run_iteration Demo.never Demo.dice Demo.wav_player Demo.mp3_player
    (Demo.world Unset Demo.disk [("wav"%string, "a.wav"%string, None)])
  = (Ok tt,
     set_queue []
       (Demo.world Unset Demo.disk [("wav"%string, "a.wav"%string, None)])).
Proof.
  apply (run_before_init Demo.never Demo.dice Demo.wav_player
           Demo.mp3_player
           (Demo.world Unset Demo.disk [("wav"%string, "a.wav"%string, None)])
           ("wav"%string, "a.wav"%string, None) []).
  - reflexivity.
  - reflexivity.
Defined.

Lemma run_player_error_witness :
  let w := Demo.world IsAPI Demo.disk
             [("wav"%string, "a.wav"%string, Some [("A"%string, 1 # 2)])] in
  (run_iteration Demo.stopping Demo.dice Demo.broken_player Demo.mp3_player
     w).1 = Ok tt
  /\ queue (run_iteration Demo.stopping Demo.dice Demo.broken_player
              Demo.mp3_player w).2 = []
  /\ handle (run_iteration Demo.stopping Demo.dice Demo.broken_player
               Demo.mp3_player w).2 = handle w
  /\ audio (trace (run_iteration Demo.stopping Demo.dice Demo.broken_player
                     Demo.mp3_player w).2) = audio (trace w)
  /\ emissions (trace (run_iteration Demo.stopping Demo.dice
                         Demo.broken_player Demo.mp3_player w).2)
     = emissions (trace w)
  /\ polls (run_iteration Demo.stopping Demo.dice Demo.broken_player
              Demo.mp3_player w).2 = polls w.
Proof.
  cbv zeta.
  apply (run_player_error Demo.stopping Demo.dice Demo.broken_player
           Demo.mp3_player _ "wav" "a.wav" (Some [("A"%string, 1 # 2)]) []
           Demo.broken_player (External "no audio device")).
  - reflexivity.
  - discriminate.
  - reflexivity.
  - reflexivity.
Defined.

Lemma run_without_visemes_witness :
  let w := Demo.world IsAPI Demo.disk
             [("wav"%string, "a.wav"%string, Some [])] in
  polls (run_iteration Demo.stopping Demo.dice Demo.wav_player
           Demo.mp3_player w).2 = polls w
  /\ emissions (trace (run_iteration Demo.stopping Demo.dice Demo.wav_player
                         Demo.mp3_player w).2) = emissions (trace w)
  /\ clock (run_iteration Demo.stopping Demo.dice Demo.wav_player
              Demo.mp3_player w).2 = clock w.
Proof.
  cbv zeta.
  apply (run_without_visemes Demo.stopping Demo.dice Demo.wav_player
           Demo.mp3_player _ "wav" "a.wav" (Some []) []).
  - reflexivity.
  - reflexivity.
Defined.

Lemma show_visimes_sends_prefix_witness :
  exists es,
    emissions
      (trace (show_visimes Demo.stopping
                [("A"%string, 1 # 2); ("B"%string, 3 # 10)]
                (Demo.world IsAPI Demo.disk [])).2)
    = emissions (trace (Demo.world IsAPI Demo.disk [])) ++ es
    /\ map fst es `prefix_of`
       map fst [("A"%string, 1 # 2); ("B"%string, 3 # 10)].
Proof.
  apply (show_visimes_sends_prefix Demo.stopping
           [("A"%string, 1 # 2); ("B"%string, 3 # 10)]
           (Demo.world IsAPI Demo.disk [])).
  reflexivity.
Defined.

Lemma default_filename_check_witness :
  exists self w1,
    TTS_init Demo.cache None None (Demo.world Unset Demo.disk [])
    = (Ok self, w1)
    /\ ((validate_filename self w1).1 = Ok tt
        <-> fs_isdir "/tmp" (fs (Demo.world Unset Demo.disk [])) = true)
    /\ (validate_filename self w1).2 = w1.
Proof.
  apply (default_filename_check Demo.cache None None
           (Demo.world Unset Demo.disk [])).
  intros _. vm_compute. reflexivity.
Defined.

Lemma create_returns_validated_witness :
  let config : gmap string CfgValue :=
    {[ "module"%string := CfgStr "marytts";
       "marytts"%string :=
         CfgDict {[ "lang"%string := "en-us"%string;
                    "url"%string := "http://localhost:59125"%string ]} ]} in
  let w := Demo.world Unset Demo.disk [] in
  exists name lang voice url w1,
    name ∈ CLASSES
    /\ Demo.build name lang voice url w
       = (Ok (mkTTS "en-us" None (Some "/tmp/tts.wav"%string) IsNone), w1)
    /\ (Demo.remote name = false <-> url = None)
    /\ Demo.check (mkTTS "en-us" None (Some "/tmp/tts.wav"%string) IsNone) w1
       = (Ok tt, (create Demo.remote Demo.build Demo.check config w).2).
Proof.
  cbv zeta.
  apply (create_returns_validated Demo.remote Demo.build Demo.check).
  vm_compute. reflexivity.
Defined.

Lemma create_rejects_unknown_witness :
  let config : gmap string CfgValue :=
    {[ "module"%string := CfgStr "festival";
       "festival"%string := CfgDict {[ "lang"%string := "en-us"%string ]} ]} in
  let w := Demo.world Unset Demo.disk [] in
  (exists e, (create Demo.remote Demo.build Demo.check config w).1 = Raise e)
  /\ (create Demo.remote Demo.build Demo.check config w).2 = w.
Proof.
  cbv zeta.
  apply (create_rejects_unknown Demo.remote Demo.build Demo.check _
           "festival").
  - vm_compute. reflexivity.
  - left. unfold CLASSES. intros H.
    repeat (apply elem_of_cons in H as [H | H]; [discriminate H |]).
    by apply elem_of_nil in H.
Defined.

Lemma create_defaults_to_mimic_witness :
  let config : gmap string CfgValue :=
    {[ "mimic"%string := CfgDict {[ "voice"%string := "ap"%string ]} ]} in
  create Demo.remote Demo.build Demo.check config
  = create Demo.remote Demo.build Demo.check
      (<["module"%string := CfgStr "mimic"]> config).
Proof.
  cbv zeta.
  apply (create_defaults_to_mimic Demo.remote Demo.build Demo.check).
  vm_compute. reflexivity.
Defined.

Lemma execute_then_run_plays_witness :
  let w := Demo.world IsAPI Demo.disk [] in
  let w1 := (execute Demo.digest Demo.cache Demo.curate "wav"
               Demo.remote_tts Demo.no_visime "hello" w).2 in
  (execute Demo.digest Demo.cache Demo.curate "wav" Demo.remote_tts
     Demo.no_visime "hello" w).1 = Ok tt
  /\ queue (run_iteration Demo.never Demo.dice Demo.wav_player
              Demo.mp3_player w1).2 = []
  /\ audio (trace (run_iteration Demo.never Demo.dice Demo.wav_player
                     Demo.mp3_player w1).2)
     = audio (trace w)
       ++ [EvPlay (mkPopen "wav" "/tmp/remote.wav");
           EvCommunicate (mkPopen "wav" "/tmp/remote.wav")].
Proof.
  cbv zeta.
  apply (execute_then_run_plays Demo.digest Demo.cache Demo.curate "wav"
           Demo.remote_tts Demo.no_visime Demo.never Demo.dice
           Demo.wav_player Demo.mp3_player "hello"
           (Demo.world IsAPI Demo.disk []) "/tmp/remote.wav" None Demo.disk
           None Demo.wav_player (mkPopen "wav" "/tmp/remote.wav")).
  - reflexivity.
  - discriminate.
  - vm_compute. reflexivity.
  - reflexivity.
  - intros H. discriminate H.
  - reflexivity.
  - reflexivity.
  - reflexivity.
Defined.
